(** * Resource resolution and context matching of the Aptos MCP server

    A shallow embedding of the tool operations of [src/server.ts]:
    [getAvailableHowToResources], [list_aptos_resources],
    [get_specific_aptos_resource], [get_aptos_resources] and the three
    [build_*] aggregation tools, together with the JavaScript and Node
    built-ins they call ([String.prototype.includes], [toLowerCase],
    [Array.prototype.join], [path.extname], [path.basename]).

    A JavaScript text is modelled as the [string] of the bytes of its
    UTF-8 encoding, on which the substring tests of well-formed texts are
    those of the code units.  The Unicode case mapping of the engine is not
    rebuilt: it is a parameter ([Engine]) of everything that lowercases. *)

From Stdlib Require Import String Ascii List Bool Arith ZArith Lia DecimalString.
Import ListNotations.
Local Open Scope list_scope.
Local Open Scope string_scope.

(** ** JavaScript string built-ins *)

Module Js.

(** [s.startsWith(t)]. *)
Fixpoint startsWith (s t : string) {struct t} : bool :=
  match t with
  | EmptyString => true
  | String b t' =>
      match s with
      | EmptyString => false
      | String a s' => Ascii.eqb a b && startsWith s' t'
      end
  end.

(** [s.includes(t)]: [t] occurs in [s] at some position. *)
Fixpoint includes (s t : string) : bool :=
  startsWith s t ||
  match s with
  | EmptyString => false
  | String _ s' => includes s' t
  end.

(** Lowercasing of one ASCII code unit; only [A]..[Z] change. *)
Definition lowerChar (c : ascii) : ascii :=
  let n := nat_of_ascii c in
  if ((65 <=? n)%nat && (n <=? 90)%nat)%bool then ascii_of_nat (n + 32) else c.

(** Lowercasing of a text made of ASCII code units. *)
Fixpoint asciiLowerCase (s : string) : string :=
  match s with
  | EmptyString => EmptyString
  | String c s' => String (lowerChar c) (asciiLowerCase s')
  end.

(** Every code unit of the text is below 128. *)
Fixpoint isAscii (s : string) : bool :=
  match s with
  | EmptyString => true
  | String c s' => (nat_of_ascii c <? 128)%nat && isAscii s'
  end.

(** [xs.join(sep)]. *)
Definition join (sep : string) (xs : list string) : string :=
  String.concat sep xs.

(** [xs.includes(x)] on an array of strings. *)
Definition arrayIncludes (xs : list string) (x : string) : bool :=
  existsb (String.eqb x) xs.

(** Truthiness of an optional string parameter: [undefined] and the empty
    string are falsy. *)
Definition truthy (o : option string) : bool :=
  match o with
  | None => false
  | Some s => negb (String.eqb s EmptyString)
  end.

End Js.

(** ** The engine's [String.prototype.toLowerCase]

    The Unicode case mapping is the JavaScript engine's.  It is taken as it
    comes, with the two facts the code relies on: on a text made of ASCII
    code units it lowers [A]..[Z] and nothing else, and no text outside the
    four ASCII spellings lowercases to [.md] (no character outside ASCII
    lowercases to a dot, an [m] or a [d]). *)
Class Engine := {
  toLowerCase : string -> string;
  toLowerCase_ascii :
    forall s, Js.isAscii s = true -> toLowerCase s = Js.asciiLowerCase s;
  toLowerCase_md :
    forall s, toLowerCase s = ".md" -> Js.asciiLowerCase s = ".md"
}.

(** An engine that lowers the ASCII letters and leaves every other code
    unit as it is; on ASCII texts every engine agrees with it. *)
Definition asciiEngine : Engine := {|
  toLowerCase := Js.asciiLowerCase;
  toLowerCase_ascii := fun _ _ => eq_refl;
  toLowerCase_md := fun _ H => H
|}.

(** ** Node's [path.extname] and [path.basename] (POSIX flavour)

    Both scan the path from its last code unit down to index 0, keeping
    integer indices with [-1] as the unset value; the scans are
    transcribed with the loop counter [n = i + 1]. *)

Module Path.

Local Open Scope Z_scope.

Definition slash : ascii := "/"%char.
Definition dot : ascii := "."%char.

Definition len (s : string) : Z := Z.of_nat (String.length s).

(** [s.charCodeAt(i) === c]; out of range never equals. *)
Definition charIs (s : string) (i : nat) (c : ascii) : bool :=
  match String.get i s with
  | Some a => Ascii.eqb a c
  | None => false
  end.

(** [s.charCodeAt(i) === t.charCodeAt(j)]. *)
Definition sameChar (s : string) (i : nat) (t : string) (j : Z) : bool :=
  match String.get i s, (if j <? 0 then None else String.get (Z.to_nat j) t) with
  | Some a, Some b => Ascii.eqb a b
  | _, _ => false
  end.

(** [s.slice(start, end)], negative indices counting from the end. *)
Definition slice (s : string) (start end_ : Z) : string :=
  let l := len s in
  let from := if start <? 0 then Z.max (l + start) 0 else Z.min start l in
  let to := if end_ <? 0 then Z.max (l + end_) 0 else Z.min end_ l in
  String.substring (Z.to_nat from) (Z.to_nat (to - from)) s.

Record ExtScan := {
  startDot : Z;
  startPart : Z;
  extEnd : Z;
  extMatchedSlash : bool;
  preDotState : Z
}.

Fixpoint extnameLoop (path : string) (n : nat) (st : ExtScan) : ExtScan :=
  match n with
  | O => st
  | S i =>
      if charIs path i slash then
        if negb (extMatchedSlash st) then
          (* break *)
          {| startDot := startDot st; startPart := Z.of_nat i + 1;
             extEnd := extEnd st; extMatchedSlash := extMatchedSlash st;
             preDotState := preDotState st |}
        else extnameLoop path i st
      else
        let st1 :=
          if extEnd st =? -1 then
            {| startDot := startDot st; startPart := startPart st;
               extEnd := Z.of_nat i + 1; extMatchedSlash := false;
               preDotState := preDotState st |}
          else st in
        let st2 :=
          if charIs path i dot then
            if startDot st1 =? -1 then
              {| startDot := Z.of_nat i; startPart := startPart st1;
                 extEnd := extEnd st1; extMatchedSlash := extMatchedSlash st1;
                 preDotState := preDotState st1 |}
            else if negb (preDotState st1 =? 1) then
              {| startDot := startDot st1; startPart := startPart st1;
                 extEnd := extEnd st1; extMatchedSlash := extMatchedSlash st1;
                 preDotState := 1 |}
            else st1
          else if negb (startDot st1 =? -1) then
            {| startDot := startDot st1; startPart := startPart st1;
               extEnd := extEnd st1; extMatchedSlash := extMatchedSlash st1;
               preDotState := -1 |}
          else st1 in
        extnameLoop path i st2
  end.

Definition extname (path : string) : string :=
  let st := extnameLoop path (String.length path)
              {| startDot := -1; startPart := 0; extEnd := -1;
                 extMatchedSlash := true; preDotState := 0 |} in
  if (startDot st =? -1) || (extEnd st =? -1) || (preDotState st =? 0) ||
     ((preDotState st =? 1) && (startDot st =? extEnd st - 1) &&
      (startDot st =? startPart st + 1))
  then EmptyString
  else slice path (startDot st) (extEnd st).

Record BaseScan := {
  start : Z;
  baseEnd : Z;
  matchedSlash : bool;
  extIdx : Z;
  firstNonSlashEnd : Z
}.

(** The scan of [basename] when a suffix is given. *)
Fixpoint basenameSuffixLoop (path suffix : string) (n : nat) (st : BaseScan)
  : BaseScan :=
  match n with
  | O => st
  | S i =>
      if charIs path i slash then
        if negb (matchedSlash st) then
          (* break *)
          {| start := Z.of_nat i + 1; baseEnd := baseEnd st;
             matchedSlash := matchedSlash st; extIdx := extIdx st;
             firstNonSlashEnd := firstNonSlashEnd st |}
        else basenameSuffixLoop path suffix i st
      else
        let st1 :=
          if firstNonSlashEnd st =? -1 then
            {| start := start st; baseEnd := baseEnd st; matchedSlash := false;
               extIdx := extIdx st; firstNonSlashEnd := Z.of_nat i + 1 |}
          else st in
        let st2 :=
          if 0 <=? extIdx st1 then
            if sameChar path i suffix (extIdx st1) then
              let extIdx' := extIdx st1 - 1 in
              {| start := start st1;
                 baseEnd := if extIdx' =? -1 then Z.of_nat i else baseEnd st1;
                 matchedSlash := matchedSlash st1; extIdx := extIdx';
                 firstNonSlashEnd := firstNonSlashEnd st1 |}
            else
              {| start := start st1; baseEnd := firstNonSlashEnd st1;
                 matchedSlash := matchedSlash st1; extIdx := -1;
                 firstNonSlashEnd := firstNonSlashEnd st1 |}
          else st1 in
        basenameSuffixLoop path suffix i st2
  end.

(** The scan of [basename] without a usable suffix. *)
Fixpoint basenameLoop (path : string) (n : nat) (st : BaseScan) : BaseScan :=
  match n with
  | O => st
  | S i =>
      if charIs path i slash then
        if negb (matchedSlash st) then
          {| start := Z.of_nat i + 1; baseEnd := baseEnd st;
             matchedSlash := matchedSlash st; extIdx := extIdx st;
             firstNonSlashEnd := firstNonSlashEnd st |}
        else basenameLoop path i st
      else if baseEnd st =? -1 then
        basenameLoop path i
          {| start := start st; baseEnd := Z.of_nat i + 1; matchedSlash := false;
             extIdx := extIdx st; firstNonSlashEnd := firstNonSlashEnd st |}
      else basenameLoop path i st
  end.

(** [basename(path, suffix)] with both arguments given. *)
Definition basename (path suffix : string) : string :=
  let init := {| start := 0; baseEnd := -1; matchedSlash := true;
                 extIdx := len suffix - 1; firstNonSlashEnd := -1 |} in
  if (0 <? len suffix) && (len suffix <=? len path) then
    if String.eqb suffix path then EmptyString
    else
      let st := basenameSuffixLoop path suffix (String.length path) init in
      let end_ :=
        if start st =? baseEnd st then firstNonSlashEnd st
        else if baseEnd st =? -1 then len path
        else baseEnd st in
      slice path (start st) end_
  else
    let st := basenameLoop path (String.length path) init in
    if baseEnd st =? -1 then EmptyString
    else slice path (start st) (baseEnd st).

End Path.

(** ** Effects: the file system, exceptions and the error console *)

(** Outcome of a call that may throw (or of a promise that may reject);
    a thrown value is kept as the text [`${err}`] renders. *)
Inductive JsResult (A : Type) : Type :=
  | Returns (a : A)
  | Throws (err : string).
Arguments Returns {A} a.
Arguments Throws {A} err.

(** What a tool call observes of its environment: the working directory,
    the directory reads of [node:fs], and the two document readers imported
    from [./utils/index.js], which [server.ts] only calls; a reader is any
    function from its arguments to an outcome. *)
Record World := {
  cwd : JsResult string;
  readdirSync : string -> JsResult (list string);
  readMarkdownFromDirectory : string -> string -> JsResult string;
  readAllMarkdownFromDirectories : list string -> JsResult string
}.

(** A computation reads the world, appends lines to the error console and
    returns or throws. *)
Definition Io (A : Type) : Type := World -> list string * JsResult A.

Definition ret {A} (a : A) : Io A := fun _ => ([], Returns a).

Definition bind {A B} (m : Io A) (k : A -> Io B) : Io B :=
  fun w =>
    match m w with
    | (out, Returns a) => let (out', r) := k a w in ((out ++ out')%list, r)
    | (out, Throws err) => (out, Throws err)
    end.

(** [try { body } catch (err) { handler }]. *)
Definition tryCatch {A} (body : Io A) (handler : string -> Io A) : Io A :=
  fun w =>
    match body w with
    | (out, Returns a) => (out, Returns a)
    | (out, Throws err) => let (out', r) := handler err w in ((out ++ out')%list, r)
    end.

Definition lift {A} (f : World -> JsResult A) : Io A := fun w => ([], f w).

Definition console_error (line : string) : Io unit :=
  fun _ => ([line], Returns tt).

Declare Scope io_scope.
Delimit Scope io_scope with io.
Notation "x <- m ;; k" := (bind m (fun x => k))
  (at level 61, m at next level, right associativity) : io_scope.
Notation "m ;; k" := (bind m (fun _ => k))
  (at level 61, right associativity) : io_scope.
Local Open Scope io_scope.

Definition logged {A} (m : Io A) (w : World) : list string := fst (m w).
Definition outcome {A} (m : Io A) (w : World) : JsResult A := snd (m w).

(** [path.join(a, b)] for a directory and a relative path; the
    normalisation of the joined path does not change which directory it
    names and is left out. *)
Definition pathJoin (a b : string) : string := a ++ "/" ++ b.

(** ** Fixed texts *)

Definition nl : string := String "010"%char EmptyString.
Definition dq : string := String "034"%char EmptyString.

(** [content || fallback] on strings. *)
Definition orElse (content fallback : string) : string :=
  if String.eqb content EmptyString then fallback else content.

(** The value a tool returns: [{ type: "text", text }]. *)
Record TextContent := { type : string; text : string }.

Definition textContent (t : string) : TextContent :=
  {| type := "text"; text := t |}.

(** The value of an optional string when it is truthy. *)
Definition whenTruthy (o : option string) : option string :=
  if Js.truthy o then o else None.

(** ** The guidance tools (server.ts, lines 95-236) *)

(** A [Record<string, T>] literal: its keys in order of declaration. *)
Fixpoint recordGet {T : Type} (key : string) (record : list (string * T))
  : option T :=
  match record with
  | [] => None
  | (k, v) :: rest => if String.eqb k key then Some v else recordGet key rest
  end.

(** [`${n}`] for a non-negative integer. *)
Definition numberToString (n : nat) : string :=
  NilEmpty.string_of_uint (Nat.to_uint n).

(** [xs.forEach((x, index) => ...)] as a loop over an accumulated text. *)
Fixpoint forEachIndexed (f : string -> string -> nat -> string)
    (xs : list string) (index : nat) (acc : string) : string :=
  match xs with
  | [] => acc
  | x :: rest => forEachIndexed f rest (S index) (f acc x index)
  end.

Module DebugIssue.

(** The values of the [context] enumeration. *)
Inductive DevContext :=
  | move_contract | frontend_integration | wallet_connection
  | transaction_signing | api_setup | deployment | other.

Definition contextName (c : DevContext) : string :=
  match c with
  | move_contract => "move_contract"
  | frontend_integration => "frontend_integration"
  | wallet_connection => "wallet_connection"
  | transaction_signing => "transaction_signing"
  | api_setup => "api_setup"
  | deployment => "deployment"
  | other => "other"
  end.

Record Args := {
  issue_description : string;
  current_code : option string;
  error_message : option string;
  context : DevContext
}.

Definition contextToResources : list (string * list string) :=
  [ ("wallet_connection",
     ["how_to_add_wallet_connection"; "how_to_integrate_wallet_selector_ui"]);
    ("transaction_signing", ["how_to_sign_and_submit_transaction"]);
    ("api_setup",
     ["how_to_config_a_full_node_api_key_in_a_dapp";
      "how_to_handle_rate_limit_in_a_dapp"]);
    ("move_contract", ["move"]);
    ("frontend_integration", ["frontend"]);
    ("deployment", ["management"]);
    ("other", []) ].

(** [contextToResources[devContext] || []]. *)
Definition resourcesFor (devContext : string) : list string :=
  match recordGet devContext contextToResources with
  | Some resources => resources
  | None => []
  end.

Definition execute (args : Args) : TextContent :=
  let devContext := contextName (context args) in
  let guidance :=
    "🔍 TARGETED APTOS GUIDANCE for: " ++ issue_description args ++ nl ++ nl in
  let guidance :=
    match whenTruthy (error_message args) with
    | Some error_message => guidance ++ ("❌ Error: " ++ error_message ++ nl ++ nl)
    | None => guidance
    end in
  let resources := resourcesFor devContext in
  let guidance :=
    if (0 <? List.length resources)%nat then
      let guidance := guidance ++ ("📚 RECOMMENDED NEXT STEPS:" ++ nl) in
      let guidance := guidance ++
        ("1. Consult these specific Aptos resources: " ++ Js.join ", " resources
         ++ nl) in
      let guidance := guidance ++
        ("2. Use 'get_specific_aptos_resource' or 'get_aptos_resources' with context: "
         ++ dq ++ devContext ++ dq ++ nl) in
      guidance ++
        ("3. Compare your approach with Aptos best practices from MCP resources"
         ++ nl ++ nl)
    else guidance in
  let guidance := guidance ++
    ("🔄 IMPORTANT: Don't guess or use generic blockchain solutions. Always:" ++ nl) in
  let guidance := guidance ++
    ("- Check MCP resources first before trying alternative approaches" ++ nl) in
  let guidance := guidance ++
    ("- Use 'validate_current_implementation' after making changes" ++ nl) in
  let guidance := guidance ++
    ("- If still stuck, provide more specific details to this tool" ++ nl ++ nl) in
  let guidance := guidance ++ ("📋 To get specific resources, use:" ++ nl) in
  let guidance := guidance ++
    ("- get_specific_aptos_resource with exact filename" ++ nl) in
  let guidance := guidance ++
    ("- get_aptos_resources with context: " ++ dq ++ devContext ++ dq ++ nl) in
  textContent guidance.

End DebugIssue.

Module ValidateImplementation.

(** The values of the [implementation_area] enumeration. *)
Inductive Area :=
  | move_contract | wallet_integration | transaction_handling
  | api_configuration | frontend_setup | full_stack.

Definition areaName (a : Area) : string :=
  match a with
  | move_contract => "move_contract"
  | wallet_integration => "wallet_integration"
  | transaction_handling => "transaction_handling"
  | api_configuration => "api_configuration"
  | frontend_setup => "frontend_setup"
  | full_stack => "full_stack"
  end.

Record Args := {
  implementation_area : Area;
  specific_concern : option string;
  current_approach : option string
}.

Definition validationPoints : list (string * list string) :=
  [ ("move_contract",
     ["Are you using proper Aptos Move syntax and not generic Move?";
      "Have you checked 'move' resources in MCP for Aptos-specific patterns?";
      "Are you handling capabilities and permissions correctly?";
      "Consider consulting management resources for deployment best practices"]);
    ("wallet_integration",
     ["Are you using the latest Aptos wallet standards?";
      "Check 'how_to_add_wallet_connection' for current best practices";
      "Verify wallet selector implementation with 'how_to_integrate_wallet_selector_ui'";
      "Ensure you're not using outdated wallet connection methods"]);
    ("transaction_handling",
     ["Are you following Aptos transaction signing patterns?";
      "Check 'how_to_sign_and_submit_transaction' for proper implementation";
      "Verify gas station integration if applicable";
      "Ensure proper error handling for Aptos-specific errors"]);
    ("api_configuration",
     ["Are you using proper Aptos API endpoints and keys?";
      "Check 'how_to_config_a_full_node_api_key_in_a_dapp' for setup guidance";
      "Verify rate limiting configuration with 'how_to_handle_rate_limit_in_a_dapp'";
      "Ensure you're using Aptos-specific API patterns"]);
    ("frontend_setup",
     ["Are you using Aptos-specific frontend integration patterns?";
      "Check frontend resources in MCP for current best practices";
      "Verify wallet connection and transaction signing flows";
      "Ensure proper error handling for Aptos frontend errors"]);
    ("full_stack",
     ["Are all components following Aptos-specific patterns?";
      "Have you validated each layer separately?";
      "Check integration patterns between Move contracts and frontend";
      "Verify end-to-end transaction flows work correctly"]) ].

Definition defaultPoints : list string :=
  ["Consult relevant MCP resources for this implementation area";
   "Compare your approach with Aptos-specific patterns";
   "Avoid using generic blockchain solutions"].

(** [validationPoints[implementation_area] || [...]]. *)
Definition pointsFor (implementation_area : string) : list string :=
  match recordGet implementation_area validationPoints with
  | Some points => points
  | None => defaultPoints
  end.

(** The callback of [points.forEach]. *)
Definition appendPoint (validation point : string) (index : nat) : string :=
  validation ++ (numberToString (index + 1) ++ ". " ++ point ++ nl).

Definition execute (args : Args) : TextContent :=
  let implementation_area := areaName (implementation_area args) in
  let validation :=
    "✅ APTOS VALIDATION CHECKLIST for: " ++ implementation_area ++ nl ++ nl in
  let validation :=
    match whenTruthy (current_approach args) with
    | Some current_approach =>
        validation ++ ("🔍 Current Approach: " ++ current_approach ++ nl ++ nl)
    | None => validation
    end in
  let points := pointsFor implementation_area in
  let validation := validation ++ ("📋 VALIDATION POINTS:" ++ nl) in
  let validation := forEachIndexed appendPoint points 0 validation in
  let validation := validation ++ (nl ++ "🔄 NEXT STEPS:" ++ nl) in
  let validation := validation ++
    ("- Use 'get_aptos_resources' with context related to " ++ implementation_area
     ++ nl) in
  let validation := validation ++
    ("- If any validation points fail, use 'debug_aptos_issue' with specific details"
     ++ nl) in
  let validation := validation ++
    ("- Regularly re-validate as you make changes" ++ nl) in
  let validation :=
    match whenTruthy (specific_concern args) with
    | Some specific_concern =>
        let validation := validation ++
          (nl ++ "⚠️  Specific Concern: " ++ specific_concern ++ nl) in
        validation ++
          ("Consider using 'debug_aptos_issue' with this specific concern for targeted guidance."
           ++ nl)
    | None => validation
    end in
  textContent validation.

End ValidateImplementation.

(** *** The matcher as the specification words it

    An ordered list of keyword groups, each a pair of trigger substrings
    (looked for in the query) and filter substrings (looked for in an
    identifier). *)
Module MatcherSpec.

Record KeywordGroup := {
  triggers : list string;
  filters : list string
}.

Definition group (ks : list string) : KeywordGroup :=
  {| triggers := ks; filters := ks |}.

Definition keywordGroups : list KeywordGroup :=
  [ group ["wallet"]; group ["gas"]; group ["indexer"];
    group ["api"; "rate"]; group ["transaction"; "sign"];
    group ["fungible"; "asset"] ].

Definition triggered (query : string) (g : KeywordGroup) : bool :=
  existsb (Js.includes query) (triggers g).

(** The first triggered group in priority order, if any. *)
Definition firstGroup (query : string) : option KeywordGroup :=
  find (triggered query) keywordGroups.

(** The filter selected for a normalized query. *)
Definition selectedFilter `{Engine} (query : string) (identifier : string) : bool :=
  match firstGroup query with
  | Some g => existsb (Js.includes (toLowerCase identifier)) (filters g)
  | None => Js.includes (toLowerCase identifier) query
  end.

Definition matchResult `{Engine} (identifiers : list string) (query : string)
  : list string :=
  filter (selectedFilter (toLowerCase query)) identifiers.

End MatcherSpec.

(** ** Aggregation across categories *)



(** ** Sample worlds *)



(** A world whose how-to directory holds the three guides of the
    specification's fixture (and a stray file without the extension). *)
Definition fixtureWorld : World := {|
  cwd := Returns "/srv/app";
  readdirSync := fun dir =>
    if dir =? "/srv/app/src/resources/how_to" then
      Returns ["how_to_add_wallet_connection.md";
               "how_to_sign_and_submit_transaction.md";
               "how_to_integrate_fungible_asset.md"; "notes.txt"]
    else Throws ("Error: ENOENT: no such file or directory, scandir '" ++ dir ++ "'");
  readMarkdownFromDirectory := fun dir name => Returns ("# " ++ dir ++ "/" ++ name);
  readAllMarkdownFromDirectories := fun _ => Returns EmptyString
|}.

(** A how-to directory whose two guides spell the extension differently. *)
Definition mixedCaseWorld : World := {|
  cwd := Returns "/srv/app";
  readdirSync := fun _ => Returns ["README.MD"; "guide.md"];
  readMarkdownFromDirectory := fun dir name => Returns ("# " ++ dir ++ "/" ++ name);
  readAllMarkdownFromDirectories := fun _ => Returns EmptyString
|}.

(** A how-to directory holding one guide under two spellings of the
    extension. *)
Definition twoSpellingsWorld : World := {|
  cwd := Returns "/srv/app";
  readdirSync := fun _ => Returns ["guide.md"; "guide.MD"];
  readMarkdownFromDirectory := fun _ _ => Returns "# guide";
  readAllMarkdownFromDirectories := fun _ => Returns EmptyString
|}.

(** A how-to directory with two wallet guides. *)
Definition walletWorld : World := {|
  cwd := Returns "/srv/app";
  readdirSync := fun _ =>
    Returns ["how_to_add_wallet_connection.md";
             "how_to_sign_and_submit_transaction.md";
             "how_to_integrate_wallet_selector_ui.md"];
  readMarkdownFromDirectory := fun dir name => Returns ("# " ++ dir ++ "/" ++ name);
  readAllMarkdownFromDirectories := fun _ => Returns EmptyString
|}.

(** A world whose how-to directory is empty. *)
Definition emptyWorld : World := {|
  cwd := Returns "/srv/app";
  readdirSync := fun _ => Returns [];
  readMarkdownFromDirectory := fun _ _ => Throws "Error: ENOENT";
  readAllMarkdownFromDirectories := fun _ => Returns EmptyString
|}.

(** A world whose working directory has no [src/resources/how_to]. *)
Definition missingDirWorld : World := {|
  cwd := Returns "/home/user";
  readdirSync := fun dir =>
    Throws ("Error: ENOENT: no such file or directory, scandir '" ++ dir ++ "'");
  readMarkdownFromDirectory := fun _ _ => Throws "Error: ENOENT";
  readAllMarkdownFromDirectories := fun _ => Returns EmptyString
|}.

(** ** The server, for any engine *)

Section Server.

Context {engine : Engine}.

(** ** The context matcher of [get_aptos_resources] *)

(** The body of the [filter] callback (server.ts, lines 379-389), with
    [contextLower] captured from the enclosing scope. *)
Definition matchesContext (contextLower file : string) : bool :=
  let fileLower := toLowerCase file in
  if Js.includes contextLower "wallet" then Js.includes fileLower "wallet"
  else if Js.includes contextLower "gas" then Js.includes fileLower "gas"
  else if Js.includes contextLower "indexer" then Js.includes fileLower "indexer"
  else if Js.includes contextLower "api" || Js.includes contextLower "rate"
    then Js.includes fileLower "api" || Js.includes fileLower "rate"
  else if Js.includes contextLower "transaction" || Js.includes contextLower "sign"
    then Js.includes fileLower "transaction" || Js.includes fileLower "sign"
  else if Js.includes contextLower "fungible" || Js.includes contextLower "asset"
    then Js.includes fileLower "fungible" || Js.includes fileLower "asset"
  else Js.includes fileLower contextLower.

(** [relevantResources]: the identifiers kept by the callback. *)
Definition relevantResources (availableFiles : list string) (context : string)
  : list string :=
  let contextLower := toLowerCase context in
  filter (fun file => matchesContext contextLower file) availableFiles.

(** ** Dynamic discovery (server.ts, lines 276-287) *)

Definition getAvailableHowToResources : Io (list string) :=
  tryCatch
    (dir <- lift cwd ;;
     let howToDir := pathJoin dir "src/resources/how_to" in
     files <- lift (fun w => readdirSync w howToDir) ;;
     ret (map (fun file => Path.basename file (Path.extname file))
            (filter (fun file => toLowerCase (Path.extname file) =? ".md")
               files)))
    (fun err =>
       console_error ("Error reading how_to directory: " ++ err) ;;
       ret []).

(** ** The aggregation tools (server.ts, lines 36-93) *)

Definition build_smart_contract_on_aptos : Io TextContent :=
  content <- lift (fun w => readAllMarkdownFromDirectories w ["management"; "move"]) ;;
  let reminder :=
    nl ++ nl ++ "🔄 IMPORTANT REMINDERS:" ++ nl ++
    "- If you get stuck implementing any part, use 'debug_aptos_issue' tool with your specific problem" ++ nl ++
    "- Before proceeding to frontend, use 'validate_current_implementation' to ensure Move code follows best practices" ++ nl ++
    "- For specific integrations (wallet, gas station, indexer), use 'get_aptos_resources' with relevant context" ++ nl ++
    "- If errors occur, always consult MCP tools before trying generic solutions" in
  ret (textContent
         (orElse content "No content found in management and move directories."
          ++ reminder)).

Definition build_ui_frontend_on_aptos : Io TextContent :=
  content <- lift (fun w => readAllMarkdownFromDirectories w ["frontend"]) ;;
  let reminder :=
    nl ++ nl ++ "🔄 IMPORTANT REMINDERS:" ++ nl ++
    "- If wallet connection fails, use 'get_specific_aptos_resource' with 'how_to_add_wallet_connection'" ++ nl ++
    "- For transaction signing issues, use 'debug_aptos_issue' with your specific error" ++ nl ++
    "- Before deploying, use 'validate_current_implementation' to check integration patterns" ++ nl ++
    "- For rate limiting or API issues, consult 'how_to_handle_rate_limit_in_a_dapp' resource" in
  ret (textContent
         (orElse content "No content found in frontend directory." ++ reminder)).

Definition build_dapp_on_aptos : Io TextContent :=
  content <- lift (fun w =>
               readAllMarkdownFromDirectories w ["frontend"; "move"; "management"]) ;;
  let reminder :=
    nl ++ nl ++ "🔄 IMPORTANT REMINDERS:" ++ nl ++
    "- At each development phase, use 'validate_current_implementation' to ensure you're following Aptos best practices" ++ nl ++
    "- If you encounter ANY errors or get stuck, use 'debug_aptos_issue' instead of guessing" ++ nl ++
    "- Before final deployment, use 'pre_deployment_checklist' to verify everything" ++ nl ++
    "- Keep consulting MCP resources throughout development - don't rely on general blockchain knowledge" in
  ret (textContent
         (orElse content
            "No content found in management, move, and frontend directories."
          ++ reminder)).

(** ** The discovery and retrieval tools (server.ts, lines 290-339) *)

Definition list_aptos_resources : Io TextContent :=
  availableFiles <- getAvailableHowToResources ;;
  let reminder :=
    nl ++ nl ++ "🔄 USAGE REMINDER:" ++ nl ++
    "- Use 'get_specific_aptos_resource' with exact filename to get detailed guidance" ++ nl ++
    "- Use 'get_aptos_resources' with context for smart recommendations" ++ nl ++
    "- Use 'debug_aptos_issue' when stuck or encountering errors" ++ nl ++
    "- Always validate your implementation with 'validate_current_implementation'" in
  ret (textContent
         ("Available Aptos development resources:" ++ nl ++
          Js.join nl (map (fun f => "- " ++ f) availableFiles) ++ nl ++ nl ++
          "Use get_specific_aptos_resource with the exact filename to retrieve content." ++
          reminder)).

Definition get_specific_aptos_resource (filename : string) : Io TextContent :=
  availableFiles <- getAvailableHowToResources ;;
  if negb (Js.arrayIncludes availableFiles filename) then
    ret (textContent
           ("Resource '" ++ filename ++ "' not found. Available resources:" ++ nl ++
            Js.join nl availableFiles))
  else
    content <- lift (fun w => readMarkdownFromDirectory w "how_to" filename) ;;
    let reminder :=
      nl ++ nl ++ "🔄 FOLLOW-UP ACTIONS:" ++ nl ++
      "- If this doesn't fully solve your issue, use 'debug_aptos_issue' with specific details" ++ nl ++
      "- After implementing, use 'validate_current_implementation' to verify correctness" ++ nl ++
      "- For related integrations, check other relevant resources with 'get_aptos_resources'" ++ nl ++
      "- Don't fall back to generic solutions - consult MCP first" in
    ret (textContent (content ++ reminder)).

(** ** Context resolution (server.ts, lines 342-435) *)

(** The parameters of [get_aptos_resources], both optional. *)
Record ResourceArgs := {
  context : option string;
  specific_resource : option string
}.

(** The text of the branch [relevantResources.length === 0]. *)
Definition noMatchText (context : string) (availableFiles : list string) : string :=
  "No direct matches found for " ++ dq ++ context ++ dq ++
  ". Available resources:" ++ nl ++
  Js.join nl availableFiles ++ nl ++ nl ++ "🔄 NEXT STEPS:" ++ nl ++
  "- Use 'get_specific_aptos_resource' with exact filename" ++ nl ++
  "- Use 'debug_aptos_issue' with your specific problem" ++ nl ++
  "- Refine your context and try again".

(** The reminder appended to an auto-selected resource. *)
Definition autoSelectedReminder (context : string) : string :=
  nl ++ nl ++ "🎯 This resource was auto-selected for context: " ++
  dq ++ context ++ dq ++ nl ++ nl ++ "🔄 IMPORTANT:" ++ nl ++
  "- Follow this Aptos-specific guidance precisely" ++ nl ++
  "- Use 'validate_current_implementation' after implementing" ++ nl ++
  "- If you encounter issues, use 'debug_aptos_issue' with specifics" ++ nl ++
  "- Don't mix with generic blockchain approaches".

(** The text built when several resources are relevant. *)
Definition multipleMatchesText (context : string) (relevant : list string) : string :=
  let response :=
    "📚 Multiple relevant resources found for " ++ dq ++ context ++ dq ++ ":" ++
    nl ++ nl in
  let response := response ++ Js.join nl (map (fun r => "- " ++ r) relevant) in
  let response := response ++ (nl ++ nl ++ "🔄 NEXT STEPS:" ++ nl) in
  let response := response ++
    ("- Use 'get_specific_aptos_resource' with the most relevant filename" ++ nl) in
  let response := response ++
    ("- Or use 'debug_aptos_issue' with your specific problem for targeted guidance" ++ nl) in
  let response := response ++
    "- Remember: Always prefer Aptos-specific solutions from MCP over generic approaches" in
  response.

(** The overview returned when no context is provided. *)
Definition overviewText (availableFiles : list string) : string :=
  "Available Aptos development resources:" ++ nl ++
  Js.join nl availableFiles ++ nl ++ nl ++ "🔄 USAGE GUIDANCE:" ++ nl ++
  "- Provide specific context for smart resource recommendations" ++ nl ++
  "- Use exact filenames with 'get_specific_aptos_resource'" ++ nl ++
  "- Use 'debug_aptos_issue' when stuck with specific problems" ++ nl ++
  "- Regularly validate with 'validate_current_implementation'".

Definition specificReminder : string :=
  nl ++ nl ++ "🔄 NEXT STEPS:" ++ nl ++
  "- Implement following this Aptos-specific guidance" ++ nl ++
  "- Use 'validate_current_implementation' after changes" ++ nl ++
  "- If issues arise, use 'debug_aptos_issue' instead of guessing" ++ nl ++
  "- Check related resources if needed".

Definition get_aptos_resources (args : ResourceArgs) : Io TextContent :=
  match whenTruthy (specific_resource args) with
  | Some specific_resource =>
      content <- lift (fun w => readMarkdownFromDirectory w "how_to" specific_resource) ;;
      ret (textContent (content ++ specificReminder))
  | None =>
      match whenTruthy (context args) with
      | Some context =>
          availableFiles <- getAvailableHowToResources ;;
          let relevant := relevantResources availableFiles context in
          if (List.length relevant =? 0)%nat then
            ret (textContent (noMatchText context availableFiles))
          else if (List.length relevant =? 1)%nat then
            content <- lift (fun w =>
                         readMarkdownFromDirectory w "how_to" (hd EmptyString relevant)) ;;
            ret (textContent (content ++ autoSelectedReminder context))
          else
            ret (textContent (multipleMatchesText context relevant))
      | None =>
          availableFiles <- getAvailableHowToResources ;;
          ret (textContent (overviewText availableFiles))
      end
  end.

(** ** Notions used by the statements *)




(** No keyword group is triggered by the normalized query. *)
Definition noGroupTriggers (contextLower : string) : Prop :=
  forall g, In g MatcherSpec.keywordGroups ->
            MatcherSpec.triggered contextLower g = false.

(** The reads of the [try] block: [process.cwd()], then [readdirSync] of
    the joined path. *)
Definition readHowToDir (w : World) : JsResult (list string) :=
  match cwd w with
  | Returns dir => readdirSync w (pathJoin dir "src/resources/how_to")
  | Throws err => Throws err
  end.

(** The identifiers derived from directory entries. *)
Definition identifiersOf (files : list string) : list string :=
  map (fun file => Path.basename file (Path.extname file))
    (filter (fun file => toLowerCase (Path.extname file) =? ".md") files).

(** The identifier listing of the how-to category in a world. *)
Definition listIdentifiers (w : World) : list string :=
  match outcome getAvailableHowToResources w with
  | Returns files => files
  | Throws _ => []
  end.

(** The world with another document reader. *)
Definition withReader (w : World) (reader : string -> string -> JsResult string)
  : World := {|
  cwd := cwd w;
  readdirSync := readdirSync w;
  readMarkdownFromDirectory := reader;
  readAllMarkdownFromDirectories := readAllMarkdownFromDirectories w
|}.

(** Loading one how-to document and appending a reminder to it. *)
Definition loadWith (w : World) (name reminder : string) : JsResult TextContent :=
  match readMarkdownFromDirectory w "how_to" name with
  | Returns content => Returns (textContent (content ++ reminder))
  | Throws err => Throws err
  end.

(** The text returned for an unknown file name. *)
Definition notFoundText (filename : string) (availableFiles : list string) : string :=
  "Resource '" ++ filename ++ "' not found. Available resources:" ++ nl ++
  Js.join nl availableFiles.

(** What precedes and follows the enumeration in [multipleMatchesText]. *)
Definition multipleMatchesHeader (context : string) : string :=
  "📚 Multiple relevant resources found for " ++ dq ++ context ++ dq ++ ":" ++
  nl ++ nl.

Definition multipleMatchesFooter : string :=
  nl ++ nl ++ "🔄 NEXT STEPS:" ++ nl ++
  "- Use 'get_specific_aptos_resource' with the most relevant filename" ++ nl ++
  "- Or use 'debug_aptos_issue' with your specific problem for targeted guidance" ++ nl ++
  "- Remember: Always prefer Aptos-specific solutions from MCP over generic approaches".

(** [xs] is obtained from [ys] by dropping elements, keeping the order. *)
Inductive Subsequence {A : Type} : list A -> list A -> Prop :=
  | sub_nil : Subsequence [] []
  | sub_keep x xs ys : Subsequence xs ys -> Subsequence (x :: xs) (x :: ys)
  | sub_drop y xs ys : Subsequence xs ys -> Subsequence xs (y :: ys).

(** The names of a listing are pairwise distinct. *)
Fixpoint distinctNames (files : list string) : bool :=
  match files with
  | [] => true
  | f :: rest => negb (existsb (String.eqb f) rest) && distinctNames rest
  end.

(** The test of the [filter] callback of discovery. *)
Definition survives (file : string) : bool :=
  toLowerCase (Path.extname file) =? ".md".

(** The state of the suffix scan of [basename] before index [n - 1] of
    the name [stem ++ ext]: still matching the extension, or done with it. *)
Definition stripInv (stem ext : string) (n : nat) (st : Path.BaseScan) : Prop :=
  (Path.start st = 0 /\
  ((Path.len stem < Z.of_nat n <= Path.len stem + Path.len ext /\
    Path.extIdx st = Z.of_nat n - Path.len stem - 1 /\
    Path.baseEnd st = -1)
   \/
   (Z.of_nat n <= Path.len stem /\
    Path.extIdx st = -1 /\ Path.baseEnd st = Path.len stem)))%Z.

(** The reminder [get_specific_aptos_resource] appends to a document. *)
Definition followUpReminder : string :=
  nl ++ nl ++ "🔄 FOLLOW-UP ACTIONS:" ++ nl ++
  "- If this doesn't fully solve your issue, use 'debug_aptos_issue' with specific details" ++ nl ++
  "- After implementing, use 'validate_current_implementation' to verify correctness" ++ nl ++
  "- For related integrations, check other relevant resources with 'get_aptos_resources'" ++ nl ++
  "- Don't fall back to generic solutions - consult MCP first".

(** The lines of the points block: each point after its number. *)
Fixpoint numberedFrom (index : nat) (points : list string) : string :=
  match points with
  | [] => EmptyString
  | point :: rest =>
      (numberToString (index + 1) ++ ". " ++ point ++ nl)
      ++ numberedFrom (S index) rest
  end.

(** The rule on file names that discovery amounts to: a name longer than
    three characters whose last three are [.md] in some letter case ... *)
Definition endsWithMd (file : string) : bool :=
  (3 <? String.length file)%nat
  && (toLowerCase (String.substring (String.length file - 3) 3 file) =? ".md").

(** ... gives the name without its last three characters. *)
Definition withoutLastThree (file : string) : string :=
  String.substring 0 (String.length file - 3) file.

(** The state of the scan of [extname] before index [n - 1] of the name
    [stem ++ "." ++ rest], where [rest] holds no dot: no dot seen yet, or
    the last dot found and the stem being scanned. *)
Definition extInv (stem rest : string) (n : nat) (st : Path.ExtScan) : Prop :=
  (Path.startPart st = 0 /\
  ((Path.len stem < Z.of_nat n /\ Path.startDot st = -1 /\
    Path.preDotState st = 0 /\
    ((Path.extEnd st = -1 /\ Z.of_nat n = Path.len stem + 1 + Path.len rest)
     \/ Path.extEnd st = Path.len stem + 1 + Path.len rest))
   \/
   (Z.of_nat n <= Path.len stem /\ Path.startDot st = Path.len stem /\
    Path.extEnd st = Path.len stem + 1 + Path.len rest /\
    (Z.of_nat n < Path.len stem ->
       Path.preDotState st = 1 \/ Path.preDotState st = -1) /\
    (Z.of_nat n = Path.len stem -> Path.preDotState st = 0))))%Z.

(** * Proofs *)

(** ** Facts about the string built-ins *)

Lemma startsWith_app (t b : string) : Js.startsWith (t ++ b) t = true.
Proof.
  induction t as [|c t IH]; simpl.
  - reflexivity.
  - rewrite Ascii.eqb_refl. exact IH.
Qed.

Lemma startsWith_app_r (s t q : string) :
  Js.startsWith s t = true -> Js.startsWith (s ++ q) t = true.
Proof.
  revert s. induction t as [|b t IH]; intros s H.
  - reflexivity.
  - destruct s as [|a s]; simpl in *; [discriminate|].
    apply andb_true_iff in H as [H1 H2].
    rewrite H1. simpl. apply IH, H2.
Qed.

Lemma append_assoc (a b c : string) : (a ++ b) ++ c = a ++ b ++ c.
Proof. induction a; simpl; congruence. Qed.

Lemma includes_cons (c : ascii) (s t : string) :
  Js.includes s t = true -> Js.includes (String c s) t = true.
Proof.
  intros H. simpl. rewrite H. apply orb_true_r.
Qed.

Lemma includes_app_l (p s t : string) :
  Js.includes s t = true -> Js.includes (p ++ s) t = true.
Proof.
  intros H. induction p as [|c p IH]; simpl.
  - exact H.
  - fold (Js.includes (p ++ s) t). rewrite IH. apply orb_true_r.
Qed.

Lemma includes_app_r (s q t : string) :
  Js.includes s t = true -> Js.includes (s ++ q) t = true.
Proof.
  induction s as [|c s IH]; intros H.
  - destruct t; simpl in H; [|discriminate].
    destruct q; reflexivity.
  - simpl in H. apply orb_true_iff in H as [H|H].
    + change (Js.includes (String c s ++ q) t)
        with (Js.startsWith (String c s ++ q) t || Js.includes (s ++ q) t).
      rewrite (startsWith_app_r _ _ q H). reflexivity.
    + change (Js.includes (String c s ++ q) t)
        with (Js.startsWith (String c s ++ q) t || Js.includes (s ++ q) t).
      rewrite (IH H). apply orb_true_r.
Qed.

Lemma includes_refl (s : string) : Js.includes s s = true.
Proof.
  destruct s as [|c s]; [reflexivity|].
  simpl. rewrite Ascii.eqb_refl. simpl.
  replace (Js.startsWith s s) with true; [reflexivity|].
  symmetry. rewrite <- (startsWith_app s EmptyString) at 1.
  f_equal. clear. induction s; simpl; congruence.
Qed.

Lemma includes_empty (s : string) : Js.includes s EmptyString = true.
Proof. destruct s; reflexivity. Qed.

(** An occurrence in the middle of a text. *)
Lemma includes_mid (p s q : string) : Js.includes (p ++ s ++ q) s = true.
Proof.
  apply includes_app_l, includes_app_r, includes_refl.
Qed.

Lemma includes_join (sep x : string) (xs : list string) :
  In x xs -> Js.includes (Js.join sep xs) x = true.
Proof.
  unfold Js.join.
  induction xs as [|y ys IH]; intros Hin; [contradiction|].
  destruct Hin as [->|Hin].
  - destruct ys; simpl.
    + apply includes_refl.
    + apply includes_app_r, includes_refl.
  - destruct ys as [|z zs]; [contradiction|].
    change (String.concat sep (y :: z :: zs))
      with (y ++ sep ++ String.concat sep (z :: zs)).
    apply includes_app_l, includes_app_l, IH, Hin.
Qed.

Lemma startsWith_toLowerCase (s t : string) :
  Js.startsWith s t = true ->
  Js.startsWith (Js.asciiLowerCase s) (Js.asciiLowerCase t) = true.
Proof.
  revert s. induction t as [|b t IH]; intros s H; [reflexivity|].
  destruct s as [|a s]; simpl in *; [discriminate|].
  apply andb_true_iff in H as [H1 H2].
  apply Ascii.eqb_eq in H1. subst b.
  now rewrite Ascii.eqb_refl, (IH s H2).
Qed.

(** Lowercasing keeps every occurrence. *)
Lemma includes_toLowerCase (s t : string) :
  Js.includes s t = true ->
  Js.includes (Js.asciiLowerCase s) (Js.asciiLowerCase t) = true.
Proof.
  induction s as [|c s IH]; intros H.
  - destruct t; [reflexivity | discriminate].
  - simpl in H. apply orb_true_iff in H as [H|H].
    + change (Js.asciiLowerCase (String c s))
        with (String (Js.lowerChar c) (Js.asciiLowerCase s)).
      cbn [Js.includes].
      change (String (Js.lowerChar c) (Js.asciiLowerCase s))
        with (Js.asciiLowerCase (String c s)).
      now rewrite (startsWith_toLowerCase _ _ H).
    + cbn [Js.asciiLowerCase]. apply includes_cons, IH, H.
Qed.

(** The spellings of the extension the filter accepts. *)
Lemma lowerChar_dot (c : ascii) : Js.lowerChar c = "."%char -> c = "."%char.
Proof.
  destruct c as [[] [] [] [] [] [] [] []]; vm_compute; intros H;
    try reflexivity; discriminate H.
Qed.

Lemma lowerChar_m (c : ascii) :
  Js.lowerChar c = "m"%char -> c = "m"%char \/ c = "M"%char.
Proof.
  destruct c as [[] [] [] [] [] [] [] []]; vm_compute; intros H;
    try (left; reflexivity); try (right; reflexivity); discriminate H.
Qed.

Lemma lowerChar_d (c : ascii) :
  Js.lowerChar c = "d"%char -> c = "d"%char \/ c = "D"%char.
Proof.
  destruct c as [[] [] [] [] [] [] [] []]; vm_compute; intros H;
    try (left; reflexivity); try (right; reflexivity); discriminate H.
Qed.

Lemma md_spellings (ext : string) :
  Js.asciiLowerCase ext = ".md" ->
  ext = ".md" \/ ext = ".mD" \/ ext = ".Md" \/ ext = ".MD".
Proof.
  destruct ext as [|c1 [|c2 [|c3 [|c4 rest]]]]; try discriminate.
  cbn [Js.asciiLowerCase]. intros H. injection H as H1 H2 H3.
  apply lowerChar_dot in H1. apply lowerChar_m in H2. apply lowerChar_d in H3.
  subst c1. destruct H2 as [-> | ->], H3 as [-> | ->]; tauto.
Qed.

(** The spellings of the extension, for the engine at hand. *)
Lemma lower_md_spellings (ext : string) :
  toLowerCase ext = ".md" ->
  ext = ".md" \/ ext = ".mD" \/ ext = ".Md" \/ ext = ".MD".
Proof. intros H. apply md_spellings, toLowerCase_md, H. Qed.

Lemma lower_md_iff (ext : string) :
  toLowerCase ext = ".md" <-> Js.asciiLowerCase ext = ".md".
Proof.
  split; [apply toLowerCase_md|]. intros Hm.
  rewrite toLowerCase_ascii; [exact Hm|].
  destruct (md_spellings ext Hm) as [-> | [-> | [-> | ->]]]; reflexivity.
Qed.

Lemma lower_md_length (ext : string) :
  toLowerCase ext = ".md" -> String.length ext = 3%nat.
Proof.
  intros H.
  destruct (lower_md_spellings ext H) as [-> | [-> | [-> | ->]]]; reflexivity.
Qed.

Lemma lower_md_nonempty (ext : string) :
  toLowerCase ext = ".md" -> ext <> EmptyString.
Proof. intros H ->. apply lower_md_length in H. discriminate H. Qed.

Lemma lower_empty : toLowerCase EmptyString = EmptyString.
Proof. now rewrite toLowerCase_ascii. Qed.

(** Lowercases the ASCII literals of a goal. *)
Ltac lower_literals :=
  repeat match goal with
         | |- context [toLowerCase ?s] =>
             rewrite (toLowerCase_ascii s) by reflexivity
         end.

(** ** Running the built-ins and the tools *)

(** ** The matcher: priority order and fallback *)

(** Closes a branch once the triggered group is known. *)
Ltac group_filter :=
  cbn [existsb MatcherSpec.filters]; rewrite ?orb_false_r; reflexivity.

Lemma matchesContext_selectedFilter (q file : string) :
  matchesContext q file = MatcherSpec.selectedFilter q file.
Proof.
  unfold matchesContext, MatcherSpec.selectedFilter, MatcherSpec.firstGroup,
    MatcherSpec.keywordGroups, MatcherSpec.triggered, MatcherSpec.group.
  cbn [find existsb MatcherSpec.triggers MatcherSpec.filters].
  rewrite !orb_false_r.
  destruct (Js.includes q "wallet"); [group_filter|].
  destruct (Js.includes q "gas"); [group_filter|].
  destruct (Js.includes q "indexer"); [group_filter|].
  destruct (Js.includes q "api" || Js.includes q "rate"); [group_filter|].
  destruct (Js.includes q "transaction" || Js.includes q "sign"); [group_filter|].
  destruct (Js.includes q "fungible" || Js.includes q "asset"); group_filter.
Qed.

Lemma relevantResources_matchResult (availableFiles : list string) (context : string) :
  relevantResources availableFiles context
    = MatcherSpec.matchResult availableFiles context.
Proof.
  unfold relevantResources, MatcherSpec.matchResult.
  apply filter_ext. intros f. apply matchesContext_selectedFilter.
Qed.

(** The same, as the nine tests of the callback. *)
Lemma noGroupTriggers_tests (q : string) :
  noGroupTriggers q <->
  Js.includes q "wallet" = false /\ Js.includes q "gas" = false /\
  Js.includes q "indexer" = false /\
  Js.includes q "api" = false /\ Js.includes q "rate" = false /\
  Js.includes q "transaction" = false /\ Js.includes q "sign" = false /\
  Js.includes q "fungible" = false /\ Js.includes q "asset" = false.
Proof.
  unfold noGroupTriggers, MatcherSpec.keywordGroups, MatcherSpec.triggered,
    MatcherSpec.group.
  split.
  - intros H.
    pose proof (H _ (or_introl eq_refl)) as H1.
    pose proof (H _ (or_intror (or_introl eq_refl))) as H2.
    pose proof (H _ (or_intror (or_intror (or_introl eq_refl)))) as H3.
    pose proof (H _ (or_intror (or_intror (or_intror (or_introl eq_refl))))) as H4.
    pose proof (H _ (or_intror (or_intror (or_intror (or_intror
                       (or_introl eq_refl)))))) as H5.
    pose proof (H _ (or_intror (or_intror (or_intror (or_intror (or_intror
                       (or_introl eq_refl))))))) as H6.
    cbn [existsb MatcherSpec.triggers] in *.
    rewrite ?orb_false_r in *.
    apply orb_false_iff in H4, H5, H6. tauto.
  - intros (H1 & H2 & H3 & H4 & H5 & H6 & H7 & H8 & H9) g Hin.
    simpl in Hin.
    repeat destruct Hin as [<-|Hin]; try contradiction;
      cbn [existsb MatcherSpec.triggers];
      rewrite ?H1, ?H2, ?H3, ?H4, ?H5, ?H6, ?H7, ?H8, ?H9; reflexivity.
Qed.

Lemma noGroupTriggers_fallback (q file : string) :
  noGroupTriggers q ->
  matchesContext q file = Js.includes (toLowerCase file) q.
Proof.
  intros H. rewrite matchesContext_selectedFilter.
  unfold MatcherSpec.selectedFilter, MatcherSpec.firstGroup.
  destruct (find (MatcherSpec.triggered q) MatcherSpec.keywordGroups) as [g|] eqn:E.
  - apply find_some in E as [Hin Ht]. rewrite (H g Hin) in Ht. discriminate.
  - reflexivity.
Qed.

(** C1: the keyword groups are tried in the order wallet, gas, indexer,
    api/rate, transaction/sign, fungible/asset, and the first group with a
    trigger occurring in the lowercased query selects the filter applied to
    the whole identifier list: the callback of the code computes exactly the
    filter chosen from the ordered group list.  In particular a query in
    which both wallet and gas occur (in any letter case) yields exactly the
    identifiers in which wallet occurs. *)
Theorem C1_first_triggered_group_selects_filter
    (availableFiles : list string) (context : string) :
  relevantResources availableFiles context
    = MatcherSpec.matchResult availableFiles context
  /\ (forall g,
        MatcherSpec.firstGroup (toLowerCase context) = Some g ->
        relevantResources availableFiles context
          = filter (fun id => existsb (Js.includes (toLowerCase id))
                                (MatcherSpec.filters g)) availableFiles)
  /\ (Js.includes (toLowerCase context) "wallet" = true ->
      Js.includes (toLowerCase context) "gas" = true ->
      relevantResources availableFiles context
        = filter (fun id => Js.includes (toLowerCase id) "wallet") availableFiles
      /\ forall id,
           In id (relevantResources availableFiles context) <->
           In id availableFiles /\ Js.includes (toLowerCase id) "wallet" = true)
  /\ (Js.isAscii context = true ->
      Js.includes context "wallet" = true ->
      Js.includes context "gas" = true ->
      relevantResources availableFiles context
        = filter (fun id => Js.includes (toLowerCase id) "wallet") availableFiles).
Proof.
  assert (Hspec : relevantResources availableFiles context
                  = MatcherSpec.matchResult availableFiles context).
  { apply relevantResources_matchResult. }
  assert (E : Js.includes (toLowerCase context) "wallet" = true ->
              relevantResources availableFiles context
              = filter (fun id => Js.includes (toLowerCase id) "wallet")
                  availableFiles).
  { intros Hw. unfold relevantResources. apply filter_ext. intros f.
    unfold matchesContext. rewrite Hw. reflexivity. }
  split; [exact Hspec|]. split; [|split].
  - intros g Hg. rewrite Hspec. unfold MatcherSpec.matchResult.
    apply filter_ext. intros f. unfold MatcherSpec.selectedFilter.
    rewrite Hg. reflexivity.
  - intros Hw _. split; [exact (E Hw)|].
    intros id. rewrite (E Hw), filter_In. reflexivity.
  - intros Ha Hw _. apply E. rewrite (toLowerCase_ascii context Ha).
    apply (includes_toLowerCase context "wallet"), Hw.
Qed.

(** C7: when no keyword group is triggered by the lowercased query, an
    identifier of the pool is in the match result exactly when its
    lowercased form contains the whole lowercased query. *)
Theorem C7_fallback_is_substring_test
    (availableFiles : list string) (context : string) :
  noGroupTriggers (toLowerCase context) ->
  forall id,
    In id (relevantResources availableFiles context) <->
    In id availableFiles /\
    Js.includes (toLowerCase id) (toLowerCase context) = true.
Proof.
  intros H id. unfold relevantResources. rewrite filter_In.
  rewrite (noGroupTriggers_fallback _ _ H). reflexivity.
Qed.

Lemma noGroupTriggers_dec (q : string) :
  forallb (fun g => negb (MatcherSpec.triggered q g)) MatcherSpec.keywordGroups = true ->
  noGroupTriggers q.
Proof.
  intros H g Hin. rewrite forallb_forall in H.
  specialize (H g Hin). now apply negb_true_iff in H.
Qed.

(** ** Facts about [extname] and [basename] on directory entries

    A directory entry is a file name: it contains no path separator. *)

Section EntryNames.

Local Open Scope Z_scope.

Lemma length_app (a b : string) :
  String.length (a ++ b) = (String.length a + String.length b)%nat.
Proof. induction a; simpl; congruence. Qed.

Lemma app_empty_r (s : string) : s ++ EmptyString = s.
Proof. induction s; simpl; congruence. Qed.

Lemma substring_prefix (a b : string) :
  String.substring 0 (String.length a) (a ++ b) = a.
Proof.
  induction a as [|c a IH]; simpl.
  - destruct b; reflexivity.
  - now rewrite IH.
Qed.

Lemma substring_split (s : string) (n : nat) :
  (n <= String.length s)%nat ->
  s = String.substring 0 n s ++ String.substring n (String.length s - n) s.
Proof.
  revert n. induction s as [|c s IH]; intros n Hn.
  - destruct n; simpl in *; [reflexivity | lia].
  - destruct n as [|n].
    + simpl. f_equal. clear. induction s; simpl; congruence.
    + simpl in Hn. cbn [String.substring String.length Nat.sub String.append].
      f_equal. apply IH. lia.
Qed.

Lemma noSlash_charIs (s : string) (i : nat) :
  Js.includes s "/" = false -> Path.charIs s i Path.slash = false.
Proof.
  unfold Path.charIs, Path.slash.
  revert i. induction s as [|c s IH]; intros i H.
  - destruct i; reflexivity.
  - simpl in H. apply orb_false_iff in H as [H1 H2].
    rewrite andb_true_r in H1.
    destruct i; simpl.
    + exact H1.
    + apply IH, H2.
Qed.

Lemma sameChar_suffix (b e : string) (j : nat) :
  (j < String.length e)%nat ->
  Path.sameChar (b ++ e) (String.length b + j) e (Z.of_nat j) = true.
Proof.
  intros Hj. unfold Path.sameChar.
  replace (Z.of_nat j <? 0) with false by (symmetry; apply Z.ltb_ge; lia).
  rewrite Nat2Z.id, Nat.add_comm, <- append_correct2.
  destruct (String.get j e) as [a|] eqn:E.
  - apply Ascii.eqb_refl.
  - exfalso. revert j Hj E. clear. induction e as [|c e IH]; intros j Hj E.
    + simpl in Hj. lia.
    + destruct j; simpl in *; [discriminate|]. apply (IH j); [lia | exact E].
Qed.

(** Case analysis on the integer tests of a scan step. *)
Ltac scan_cases :=
  cbn;
  repeat match goal with
         | |- context [Z.eqb ?a ?b] => destruct (Z.eqb_spec a b); cbn
         end;
  unfold Path.len in *; lia.

(** Along a name without separator the scan of [extname] fixes the end of
    the extension at the end of the name and its start inside the name. *)
Lemma extnameLoop_bounds (p : string) :
  Js.includes p "/" = false ->
  forall (n : nat) (st : Path.ExtScan),
    (n <= String.length p)%nat ->
    (Path.extEnd st = -1 /\ n = String.length p) \/ Path.extEnd st = Path.len p ->
    Path.startDot st = -1 \/ 0 <= Path.startDot st < Path.len p ->
    let st' := Path.extnameLoop p n st in
    (Path.extEnd st' = -1 \/ Path.extEnd st' = Path.len p) /\
    (Path.startDot st' = -1 \/ 0 <= Path.startDot st' < Path.len p).
Proof.
  intros Hp. induction n as [|i IH]; intros st Hn He Hd.
  - simpl. split; [tauto | exact Hd].
  - cbn [Path.extnameLoop]. rewrite (noSlash_charIs p i Hp).
    apply IH; [lia | |].
    + right. destruct (Path.charIs p i Path.dot); scan_cases.
    + destruct (Path.charIs p i Path.dot); scan_cases.
Qed.

(** The extension is a suffix of the name. *)
Lemma extname_suffix (p : string) :
  Js.includes p "/" = false ->
  exists stem, p = stem ++ Path.extname p.
Proof.
  intros Hp. unfold Path.extname.
  match goal with
  | |- context [Path.extnameLoop p ?n ?s] =>
      pose proof (extnameLoop_bounds p Hp n s) as B;
      set (st := Path.extnameLoop p n s) in *
  end.
  cbn zeta in B.
  destruct B as [Be Bd]; [lia | left; split; reflexivity | left; reflexivity |].
  destruct (Path.startDot st =? -1) eqn:E1;
    [exists p; cbn; now rewrite app_empty_r|].
  destruct (Path.extEnd st =? -1) eqn:E2;
    [exists p; cbn; now rewrite app_empty_r|].
  match goal with
  | |- context [if ?c then _ else _] =>
      destruct c; [exists p; now rewrite app_empty_r|]
  end.
  apply Z.eqb_neq in E1, E2.
  destruct Be as [Be|Be]; [contradiction|].
  destruct Bd as [Bd|Bd]; [contradiction|].
  exists (String.substring 0 (Z.to_nat (Path.startDot st)) p).
  unfold Path.slice. rewrite Be.
  replace (Path.startDot st <? 0) with false by (symmetry; apply Z.ltb_ge; lia).
  replace (Path.len p <? 0) with false
    by (symmetry; apply Z.ltb_ge; unfold Path.len; lia).
  rewrite Z.min_id, Z.min_l by lia.
  replace (Z.to_nat (Path.len p - Path.startDot st))
    with (String.length p - Z.to_nat (Path.startDot st))%nat
    by (unfold Path.len in *; lia).
  apply substring_split. unfold Path.len in *. lia.
Qed.

Lemma basenameSuffixLoop_strips (stem ext : string) :
  Js.includes (stem ++ ext) "/" = false ->
  forall (n : nat) (st : Path.BaseScan),
    stripInv stem ext n st ->
    let st' := Path.basenameSuffixLoop (stem ++ ext) ext n st in
    Path.start st' = 0 /\ Path.baseEnd st' = Path.len stem.
Proof.
  intros Hp. induction n as [|i IH]; intros st [Hs Hinv].
  - simpl. unfold Path.len in *. split; [exact Hs | lia].
  - cbn [Path.basenameSuffixLoop].
    rewrite (noSlash_charIs _ i Hp).
    apply IH. clear IH.
    destruct Hinv as [(Hn & Hx & He) | (Hn & Hx & He)].
    + assert (Hi : i = (String.length stem + (i - String.length stem))%nat)
        by (unfold Path.len in *; lia).
      assert (Hsame : Path.sameChar (stem ++ ext) i ext (Path.extIdx st) = true).
      { rewrite Hi at 1.
        replace (Path.extIdx st) with (Z.of_nat (i - String.length stem))
          by (unfold Path.len in *; lia).
        apply sameChar_suffix. unfold Path.len in *. lia. }
      split.
      * destruct (Path.firstNonSlashEnd st =? -1); cbn; rewrite ?Hsame, ?Hx;
          repeat match goal with
                 | |- context [Z.leb ?a ?b] => destruct (Z.leb_spec a b); cbn
                 end; rewrite ?Hsame; cbn; try exact Hs;
          unfold Path.len in *; lia.
      * destruct (Path.firstNonSlashEnd st =? -1); cbn [Path.extIdx Path.baseEnd];
          (destruct (Z.leb_spec 0 (Path.extIdx st));
           [ rewrite Hsame; cbn [Path.extIdx Path.baseEnd];
             destruct (Z.eqb_spec (Path.extIdx st - 1) (-1));
             unfold Path.len in *; lia
           | unfold Path.len in *; lia ]).
    + split.
      * destruct (Path.firstNonSlashEnd st =? -1); cbn; rewrite ?Hx; cbn;
          exact Hs.
      * right.
        destruct (Path.firstNonSlashEnd st =? -1); cbn; rewrite ?Hx; cbn;
          unfold Path.len in *; lia.
Qed.

(** Stripping the extension of a name gives back its stem. *)
Lemma basename_strips (stem ext : string) :
  ext <> EmptyString ->
  Js.includes (stem ++ ext) "/" = false ->
  Path.basename (stem ++ ext) ext = stem.
Proof.
  intros Hext Hp. unfold Path.basename.
  assert (Hlen : 0 < Path.len ext)
    by (destruct ext; [contradiction | unfold Path.len; simpl; lia]).
  assert (Happ : Path.len (stem ++ ext) = Path.len stem + Path.len ext)
    by (unfold Path.len; rewrite length_app; lia).
  replace (0 <? Path.len ext) with true by (symmetry; apply Z.ltb_lt; lia).
  replace (Path.len ext <=? Path.len (stem ++ ext)) with true
    by (symmetry; apply Z.leb_le; unfold Path.len in *; lia).
  cbn [andb].
  destruct (String.eqb_spec ext (stem ++ ext)) as [E|E].
  - apply (f_equal String.length) in E. rewrite length_app in E.
    destruct stem; [reflexivity | simpl in E; lia].
  - assert (Hstem : 0 < Path.len stem).
    { destruct stem; [exfalso; apply E; reflexivity | unfold Path.len; simpl; lia]. }
    match goal with
    | |- context [Path.basenameSuffixLoop ?p ?e ?n ?s] =>
        pose proof (basenameSuffixLoop_strips stem ext Hp n s) as B;
        set (st := Path.basenameSuffixLoop p e n s) in *
    end.
    cbn zeta in B. destruct B as [Bs Be].
    { split; [reflexivity|]. left. cbn. unfold Path.len in *.
      rewrite length_app. lia. }
    rewrite Bs, Be.
    replace (0 =? Path.len stem) with false by (symmetry; apply Z.eqb_neq; lia).
    replace (Path.len stem =? -1) with false by (symmetry; apply Z.eqb_neq; lia).
    unfold Path.slice. rewrite Happ. cbn [Z.ltb Z.compare].
    replace (Path.len stem <? 0) with false by (symmetry; apply Z.ltb_ge; lia).
    rewrite Z.min_l, Z.min_l, Z.sub_0_r by lia.
    unfold Path.len. rewrite Nat2Z.id. apply substring_prefix.
Qed.

(** Two names without separator that carry the same extension and have
    the same stripped identifier are the same name. *)
Lemma identifier_injective (f g : string) :
  Js.includes f "/" = false ->
  Js.includes g "/" = false ->
  Path.extname f <> EmptyString ->
  Path.extname f = Path.extname g ->
  Path.basename f (Path.extname f) = Path.basename g (Path.extname g) ->
  f = g.
Proof.
  intros Hf Hg Hne Hext Hid.
  destruct (extname_suffix f Hf) as [sf Ef].
  destruct (extname_suffix g Hg) as [sg Eg].
  assert (Bf : Path.basename f (Path.extname f) = sf).
  { rewrite Ef at 1. apply basename_strips; [exact Hne | now rewrite <- Ef]. }
  assert (Bg : Path.basename g (Path.extname g) = sg).
  { rewrite Eg at 1. apply basename_strips;
      [now rewrite <- Hext | now rewrite <- Eg]. }
  rewrite Ef, Eg, <- Bf, <- Bg, Hid, Hext. reflexivity.
Qed.

End EntryNames.

(** ** Discovery *)

Lemma getAvailable_readable (w : World) (files : list string) :
  readHowToDir w = Returns files ->
  getAvailableHowToResources w = ([], Returns (identifiersOf files)).
Proof.
  unfold readHowToDir, getAvailableHowToResources, tryCatch, bind, lift, ret.
  intros H. destruct (cwd w) as [dir|err]; [|discriminate].
  rewrite H. reflexivity.
Qed.

Lemma getAvailable_unreadable (w : World) (err : string) :
  readHowToDir w = Throws err ->
  getAvailableHowToResources w
    = (["Error reading how_to directory: " ++ err], Returns []).
Proof.
  unfold readHowToDir, getAvailableHowToResources, tryCatch, bind, lift, ret.
  intros H. destruct (cwd w) as [dir|err'].
  - rewrite H. reflexivity.
  - injection H as ->. reflexivity.
Qed.

(** Discovery never throws. *)
Lemma getAvailable_returns (w : World) :
  getAvailableHowToResources w
    = (logged getAvailableHowToResources w, Returns (listIdentifiers w)).
Proof.
  unfold listIdentifiers, logged, outcome.
  destruct (readHowToDir w) as [files|err] eqn:E.
  - rewrite (getAvailable_readable w files E). reflexivity.
  - rewrite (getAvailable_unreadable w err E). reflexivity.
Qed.

Lemma listIdentifiers_readable (w : World) (files : list string) :
  readHowToDir w = Returns files -> listIdentifiers w = identifiersOf files.
Proof.
  intros H. unfold listIdentifiers, outcome.
  now rewrite (getAvailable_readable w files H).
Qed.

Lemma listIdentifiers_unreadable (w : World) (err : string) :
  readHowToDir w = Throws err -> listIdentifiers w = [].
Proof.
  intros H. unfold listIdentifiers, outcome.
  now rewrite (getAvailable_unreadable w err H).
Qed.

(** A tool that starts with discovery continues with the listing. *)
Lemma bind_getAvailable {B} (k : list string -> Io B) (w : World) :
  bind getAvailableHowToResources k w
    = ((logged getAvailableHowToResources w ++ fst (k (listIdentifiers w) w))%list,
       snd (k (listIdentifiers w) w)).
Proof.
  unfold bind. rewrite getAvailable_returns.
  destruct (k (listIdentifiers w) w). reflexivity.
Qed.

Lemma distinctNames_NoDup (files : list string) :
  distinctNames files = true -> NoDup files.
Proof.
  induction files as [|f rest IH]; intros H; [constructor|].
  simpl in H. apply andb_true_iff in H as [H1 H2].
  constructor; [|now apply IH].
  intros Hin. apply negb_true_iff in H1.
  assert (existsb (String.eqb f) rest = true); [|congruence].
  apply existsb_exists. exists f. split; [exact Hin | apply String.eqb_refl].
Qed.

(** ** Running the tools *)

Lemma getAvailable_withReader (w : World) reader :
  getAvailableHowToResources (withReader w reader) = getAvailableHowToResources w.
Proof. reflexivity. Qed.

Lemma listIdentifiers_withReader (w : World) reader :
  listIdentifiers (withReader w reader) = listIdentifiers w.
Proof. reflexivity. Qed.

Lemma getAvailable_same_directory (w w' : World) :
  readHowToDir w' = readHowToDir w ->
  getAvailableHowToResources w' = getAvailableHowToResources w.
Proof.
  intros H. destruct (readHowToDir w) as [files|err] eqn:E.
  - now rewrite (getAvailable_readable w files E), (getAvailable_readable w' files H).
  - now rewrite (getAvailable_unreadable w err E), (getAvailable_unreadable w' err H).
Qed.

Lemma whenTruthy_falsy (o : option string) :
  Js.truthy o = false -> whenTruthy o = None.
Proof. unfold whenTruthy. now intros ->. Qed.

Lemma whenTruthy_nonempty (s : string) :
  s <> EmptyString -> whenTruthy (Some s) = Some s.
Proof.
  intros H. unfold whenTruthy, Js.truthy.
  destruct (String.eqb_spec s EmptyString); [contradiction | reflexivity].
Qed.

(** The three branches of the context path, by the number of matches. *)
Lemma get_aptos_resources_context (w : World) (args : ResourceArgs) (query : string) :
  context args = Some query -> query <> EmptyString ->
  Js.truthy (specific_resource args) = false ->
  get_aptos_resources args w =
  (logged getAvailableHowToResources w,
   match relevantResources (listIdentifiers w) query with
   | [] => Returns (textContent (noMatchText query (listIdentifiers w)))
   | [id] => loadWith w id (autoSelectedReminder query)
   | matches => Returns (textContent (multipleMatchesText query matches))
   end).
Proof.
  intros Hc Hq Hs. unfold get_aptos_resources.
  rewrite (whenTruthy_falsy _ Hs), Hc, (whenTruthy_nonempty _ Hq).
  rewrite bind_getAvailable.
  destruct (relevantResources (listIdentifiers w) query) as [|id [|id' rest]];
    cbn [List.length Nat.eqb hd].
  - cbn. now rewrite app_nil_r.
  - unfold bind, lift, ret, loadWith.
    destruct (readMarkdownFromDirectory w "how_to" id); cbn; now rewrite app_nil_r.
  - cbn. now rewrite app_nil_r.
Qed.

(** The overview path: neither parameter is truthy. *)
Lemma get_aptos_resources_overview (w : World) (args : ResourceArgs) :
  Js.truthy (context args) = false ->
  Js.truthy (specific_resource args) = false ->
  get_aptos_resources args w =
  (logged getAvailableHowToResources w,
   Returns (textContent (overviewText (listIdentifiers w)))).
Proof.
  intros Hc Hs. unfold get_aptos_resources.
  rewrite (whenTruthy_falsy _ Hs), (whenTruthy_falsy _ Hc), bind_getAvailable.
  cbn. now rewrite app_nil_r.
Qed.

Lemma noMatchText_lists (query : string) (available : list string) (id : string) :
  In id available -> Js.includes (noMatchText query available) id = true.
Proof.
  intros H. unfold noMatchText.
  do 6 apply includes_app_l. apply includes_app_r, includes_join, H.
Qed.

Lemma overviewText_lists (available : list string) (id : string) :
  In id available -> Js.includes (overviewText available) id = true.
Proof.
  intros H. unfold overviewText.
  do 2 apply includes_app_l. apply includes_app_r, includes_join, H.
Qed.

(** ** Order of the matches *)

Lemma filter_Subsequence {A : Type} (p : A -> bool) (l : list A) :
  Subsequence (filter p l) l.
Proof.
  induction l as [|x l IH]; simpl.
  - constructor.
  - destruct (p x); now constructor.
Qed.

Lemma multipleMatchesText_parts (context : string) (relevant : list string) :
  multipleMatchesText context relevant
    = multipleMatchesHeader context
      ++ Js.join nl (map (fun r => "- " ++ r) relevant)
      ++ multipleMatchesFooter.
Proof.
  unfold multipleMatchesText, multipleMatchesHeader, multipleMatchesFooter.
  cbn zeta. rewrite !append_assoc. reflexivity.
Qed.

(** C8: when a context query has several matches, they are the identifiers
    of the listing that pass the selected filter, in the order of the
    listing, the returned text enumerates them in that order, and the
    answer is the same in every world with the same directory listing. *)
Theorem C8_matches_in_discovery_order
    (w : World) (args : ResourceArgs) (query : string) :
  context args = Some query -> query <> EmptyString ->
  Js.truthy (specific_resource args) = false ->
  let available := listIdentifiers w in
  let matches := relevantResources available query in
  (1 < List.length matches)%nat ->
  matches = filter (MatcherSpec.selectedFilter (toLowerCase query)) available
  /\ Subsequence matches available
  /\ outcome (get_aptos_resources args) w
       = Returns (textContent
                    (multipleMatchesHeader query
                     ++ Js.join nl (map (fun r => "- " ++ r) matches)
                     ++ multipleMatchesFooter))
  /\ (forall w', readHowToDir w' = readHowToDir w ->
        get_aptos_resources args w' = get_aptos_resources args w).
Proof.
  intros Hc Hq Hs available matches Hlen.
  split; [|split; [|split]].
  - apply relevantResources_matchResult.
  - apply filter_Subsequence.
  - unfold outcome.
    rewrite (get_aptos_resources_context w args query Hc Hq Hs).
    fold available. fold matches. cbn [snd].
    destruct matches as [|a [|b rest]] eqn:E; simpl in Hlen; try lia.
    now rewrite multipleMatchesText_parts.
  - intros w' Hw.
    rewrite (get_aptos_resources_context w args query Hc Hq Hs),
      (get_aptos_resources_context w' args query Hc Hq Hs).
    assert (L : listIdentifiers w' = listIdentifiers w)
      by (unfold listIdentifiers, outcome;
          now rewrite (getAvailable_same_directory w w' Hw)).
    assert (G : logged getAvailableHowToResources w'
                = logged getAvailableHowToResources w)
      by (unfold logged; now rewrite (getAvailable_same_directory w w' Hw)).
    rewrite L, G. fold available. fold matches.
    destruct matches as [|a [|b rest]]; simpl in Hlen; try lia.
    reflexivity.
Qed.

(** ** The empty query *)

Lemma filter_all {A : Type} (p : A -> bool) (l : list A) :
  (forall x, p x = true) -> filter p l = l.
Proof.
  intros H. induction l as [|x l IH]; simpl; [reflexivity|].
  now rewrite H, IH.
Qed.

Lemma matchesContext_empty (file : string) :
  matchesContext EmptyString file = true.
Proof.
  unfold matchesContext. cbn [Js.includes Js.startsWith orb].
  apply includes_empty.
Qed.

(** C3: on the empty query no keyword group is triggered and the substring
    fallback accepts every identifier, so the matcher selects the whole
    listing; the tool answers the empty query with the overview that lists
    every available identifier, the same answer as without a context, and
    that overview carries the same identifier listing as the no-match
    answer. *)
Theorem C3_empty_query_lists_everything :
  noGroupTriggers (toLowerCase EmptyString)
  /\ (forall file,
        matchesContext (toLowerCase EmptyString) file
          = Js.includes (toLowerCase file) EmptyString
        /\ matchesContext (toLowerCase EmptyString) file = true)
  /\ (forall availableFiles, relevantResources availableFiles EmptyString = availableFiles)
  /\ (forall (w : World) (args : ResourceArgs),
        context args = Some EmptyString ->
        Js.truthy (specific_resource args) = false ->
        get_aptos_resources args w
          = (logged getAvailableHowToResources w,
             Returns (textContent (overviewText (listIdentifiers w))))
        /\ get_aptos_resources args w
           = get_aptos_resources
               {| context := None; specific_resource := specific_resource args |} w
        /\ (forall id, In id (listIdentifiers w) ->
              Js.includes (overviewText (listIdentifiers w)) id = true))
  /\ (forall (query : string) (available : list string),
        (exists header footer,
           overviewText available = header ++ Js.join nl available ++ footer)
        /\ (exists header footer,
              noMatchText query available = header ++ Js.join nl available ++ footer)).
Proof.
  split; [|split; [|split; [|split]]].
  - apply noGroupTriggers_dec. rewrite lower_empty. reflexivity.
  - intros file. rewrite lower_empty, matchesContext_empty.
    split; [symmetry; apply includes_empty | reflexivity].
  - intros l. unfold relevantResources. rewrite lower_empty.
    apply filter_all, matchesContext_empty.
  - intros w args Hc Hs.
    assert (Hfalsy : Js.truthy (context args) = false) by (rewrite Hc; reflexivity).
    split; [|split].
    + apply get_aptos_resources_overview; assumption.
    + rewrite (get_aptos_resources_overview w args Hfalsy Hs).
      symmetry. apply get_aptos_resources_overview; [reflexivity | exact Hs].
    + intros id. apply overviewText_lists.
  - intros query available. split.
    + eexists _, _. unfold overviewText. rewrite <- append_assoc. reflexivity.
    + eexists _, _. unfold noMatchText.
      rewrite <- 5 append_assoc. reflexivity.
Qed.

(** ** Unknown identifiers *)

Lemma arrayIncludes_In (xs : list string) (x : string) :
  Js.arrayIncludes xs x = true <-> In x xs.
Proof.
  unfold Js.arrayIncludes. rewrite existsb_exists. split.
  - intros [y [Hy E]]. apply String.eqb_eq in E. now subst.
  - intros H. exists x. split; [exact H | apply String.eqb_refl].
Qed.

Lemma get_specific_not_found (w : World) (filename : string) :
  ~ In filename (listIdentifiers w) ->
  get_specific_aptos_resource filename w
  = (logged getAvailableHowToResources w,
     Returns (textContent (notFoundText filename (listIdentifiers w)))).
Proof.
  intros Hnot. unfold get_specific_aptos_resource.
  rewrite bind_getAvailable.
  destruct (Js.arrayIncludes (listIdentifiers w) filename) eqn:E.
  - apply arrayIncludes_In in E. contradiction.
  - cbn. now rewrite app_nil_r.
Qed.

(** C4 (amended): for every identifier absent from the listing, the lookup
    reads no document and does not throw; it returns the not-found text,
    which enumerates the whole listing, hence names every valid identifier
    (at least one whenever the listing is not empty), and holds nothing
    else. *)
Theorem C4_unknown_identifier_lists_alternatives (w : World) (filename : string) :
  ~ In filename (listIdentifiers w) ->
  outcome (get_specific_aptos_resource filename) w
    = Returns (textContent
                 ("Resource '" ++ filename ++ "' not found. Available resources:"
                  ++ nl ++ Js.join nl (listIdentifiers w)))
  /\ (forall id, In id (listIdentifiers w) ->
        Js.includes (notFoundText filename (listIdentifiers w)) id = true)
  /\ (listIdentifiers w <> [] ->
        exists id, In id (listIdentifiers w) /\
                   Js.includes (notFoundText filename (listIdentifiers w)) id = true)
  /\ (forall reader,
        get_specific_aptos_resource filename (withReader w reader)
          = get_specific_aptos_resource filename w).
Proof.
  intros Hnot.
  assert (Hlists : forall id, In id (listIdentifiers w) ->
            Js.includes (notFoundText filename (listIdentifiers w)) id = true).
  { intros id Hin. unfold notFoundText.
    do 4 apply includes_app_l. apply includes_join, Hin. }
  split; [|split; [|split]].
  - unfold outcome. now rewrite (get_specific_not_found w filename Hnot).
  - exact Hlists.
  - intros Hne. destruct (listIdentifiers w) as [|id rest] eqn:E; [contradiction|].
    exists id. split; [left; reflexivity|]. apply Hlists. left. reflexivity.
  - intros reader.
    rewrite (get_specific_not_found w filename Hnot).
    apply (get_specific_not_found (withReader w reader) filename Hnot).
Qed.

(** ** An unreadable directory *)

Lemma run_with_listing {B} (k : list string -> Io B) (w : World) (err : string) :
  readHowToDir w = Throws err ->
  bind getAvailableHowToResources k w
  = (("Error reading how_to directory: " ++ err) :: fst (k [] w),
     snd (k [] w)).
Proof.
  intros H. rewrite bind_getAvailable.
  unfold logged. rewrite (listIdentifiers_unreadable w err H).
  now rewrite (getAvailable_unreadable w err H).
Qed.

(** C5: in every state of the file system where reading the how-to
    directory fails, discovery returns the empty listing and writes one line
    naming the failure on the error console; discovery never throws in any
    state, and the tools built on it still return a text. *)
Theorem C5_unreadable_directory_is_empty_listing (w : World) (err : string) :
  readHowToDir w = Throws err ->
  getAvailableHowToResources w
    = (["Error reading how_to directory: " ++ err], Returns [])
  /\ (forall w', exists out files,
        getAvailableHowToResources w' = (out, Returns files))
  /\ (exists t, list_aptos_resources w
                = (["Error reading how_to directory: " ++ err], Returns t))
  /\ (forall filename,
        get_specific_aptos_resource filename w
        = (["Error reading how_to directory: " ++ err],
           Returns (textContent (notFoundText filename []))))
  /\ (forall args,
        Js.truthy (specific_resource args) = false ->
        exists t, get_aptos_resources args w
                  = (["Error reading how_to directory: " ++ err], Returns t)).
Proof.
  intros H. split; [|split; [|split; [|split]]].
  - apply getAvailable_unreadable, H.
  - intros w'. eexists _, _. apply getAvailable_returns.
  - unfold list_aptos_resources. rewrite (run_with_listing _ w err H).
    eexists. reflexivity.
  - intros filename.
    assert (Hnot : ~ In filename (listIdentifiers w))
      by (rewrite (listIdentifiers_unreadable w err H); intros []).
    rewrite (get_specific_not_found w filename Hnot).
    unfold logged.
    rewrite (listIdentifiers_unreadable w err H), (getAvailable_unreadable w err H).
    reflexivity.
  - intros args Hs. unfold get_aptos_resources.
    rewrite (whenTruthy_falsy _ Hs).
    destruct (whenTruthy (context args)) as [query|];
      rewrite (run_with_listing _ w err H); cbn; eexists; reflexivity.
Qed.

(** ** Aggregation without content *)

Lemma orElse_empty (fallback : string) : orElse EmptyString fallback = fallback.
Proof. reflexivity. Qed.

Lemma nonempty_app (a b : string) : a <> EmptyString -> a ++ b <> EmptyString.
Proof. destruct a; [contradiction | discriminate]. Qed.







(** ** An explicit resource *)

(** C10 (amended): whenever a non-empty [specific_resource] is supplied,
    the tool reads that document and returns its content followed by the
    reminder, writes nothing on the error console, and neither the context
    parameter nor the directory listing has any influence: the identifier is
    not checked against the listing and an unknown one is answered by the
    reader alone. *)
Theorem C10_explicit_resource_is_loaded_directly
    (w : World) (args : ResourceArgs) (name : string) :
  specific_resource args = Some name -> name <> EmptyString ->
  get_aptos_resources args w = ([], loadWith w name specificReminder)
  /\ (forall other,
        get_aptos_resources {| context := other; specific_resource := Some name |} w
          = get_aptos_resources args w)
  /\ (forall w',
        readMarkdownFromDirectory w' "how_to" name
          = readMarkdownFromDirectory w "how_to" name ->
        get_aptos_resources args w' = get_aptos_resources args w).
Proof.
  intros Hs Hne.
  assert (R : forall a v, specific_resource a = Some name ->
                get_aptos_resources a v = ([], loadWith v name specificReminder)).
  { intros a v Ha. unfold get_aptos_resources.
    rewrite Ha, (whenTruthy_nonempty _ Hne).
    unfold bind, lift, ret, loadWith.
    destruct (readMarkdownFromDirectory v "how_to" name); reflexivity. }
  split; [|split].
  - apply R, Hs.
  - intros other. rewrite (R args w Hs). apply R. reflexivity.
  - intros w' Hr. rewrite (R args w Hs), (R args w' Hs).
    unfold loadWith. now rewrite Hr.
Qed.

(** ** Which directory entries are listed *)

Section KeptEntries.

Local Open Scope Z_scope.

Lemma noChar_charIs (s : string) (i : nat) (c : ascii) :
  Js.includes s (String c EmptyString) = false -> Path.charIs s i c = false.
Proof.
  unfold Path.charIs.
  revert i. induction s as [|a s IH]; intros i H.
  - destruct i; reflexivity.
  - simpl in H. apply orb_false_iff in H as [H1 H2].
    rewrite andb_true_r in H1.
    destruct i; simpl.
    + exact H1.
    + apply IH, H2.
Qed.

Lemma charIs_app_r (a b : string) (j : nat) (c : ascii) :
  Path.charIs (a ++ b) (String.length a + j) c = Path.charIs b j c.
Proof.
  unfold Path.charIs. now rewrite Nat.add_comm, <- append_correct2.
Qed.

Lemma substring_suffix (a b : string) :
  String.substring (String.length a) (String.length b) (a ++ b) = b.
Proof.
  induction a as [|c a IH]; simpl.
  - rewrite <- (app_empty_r b) at 2. apply substring_prefix.
  - exact IH.
Qed.

Lemma extnameLoop_last_dot (stem rest : string) :
  Js.includes (stem ++ String Path.dot rest) "/" = false ->
  Js.includes rest "." = false ->
  forall (n : nat) (st : Path.ExtScan),
    extInv stem rest n st ->
    let st' := Path.extnameLoop (stem ++ String Path.dot rest) n st in
    Path.startPart st' = 0 /\ Path.startDot st' = Path.len stem /\
    Path.extEnd st' = Path.len stem + 1 + Path.len rest /\
    (0 < Path.len stem ->
       Path.preDotState st' = 1 \/ Path.preDotState st' = -1).
Proof.
  intros Hslash Hdot. induction n as [|i IH]; intros st [Hp Hinv].
  - simpl. unfold Path.len in *. destruct Hinv as [H|H]; [lia|].
    destruct H as (H1 & H2 & H3 & H4 & H5).
    repeat split; assumption.
  - cbn [Path.extnameLoop].
    rewrite (noSlash_charIs _ i Hslash).
    apply IH. clear IH. unfold extInv.
    destruct (lt_eq_lt_dec i (String.length stem)) as [[Hlt|Heq]|Hgt].
    + (* inside the stem *)
      destruct Hinv as [H|H]; [unfold Path.len in *; lia|].
      destruct H as (Hn & Hsd & Hee & _ & _).
      destruct (Path.charIs (stem ++ String Path.dot rest) i Path.dot);
        cbn; rewrite ?Hee, ?Hsd;
        repeat match goal with
               | |- context [Z.eqb ?a ?b] => destruct (Z.eqb_spec a b); cbn
               end;
        unfold Path.len in *; (split; [assumption|]); right; lia.
    + (* the last dot *)
      subst i.
      assert (Hc : Path.charIs (stem ++ String Path.dot rest)
                     (String.length stem) Path.dot = true).
      { rewrite <- (Nat.add_0_r (String.length stem)), charIs_app_r.
        reflexivity. }
      rewrite Hc.
      destruct Hinv as [H|H]; [|unfold Path.len in *; lia].
      destruct H as (Hn & Hsd & Hpd & Hee).
      destruct (Z.eqb_spec (Path.extEnd st) (-1)); cbn; rewrite ?Hsd; cbn;
        unfold Path.len in *; (split; [assumption|]); right; lia.
    + (* inside the extension *)
      assert (Hc : Path.charIs (stem ++ String Path.dot rest) i Path.dot = false).
      { replace i with (String.length stem + S (i - String.length stem - 1))%nat
          by lia.
        rewrite charIs_app_r. apply (noChar_charIs rest _ Path.dot Hdot). }
      rewrite Hc.
      destruct Hinv as [H|H]; [|unfold Path.len in *; lia].
      destruct H as (Hn & Hsd & Hpd & Hee).
      destruct (Z.eqb_spec (Path.extEnd st) (-1)); cbn; rewrite ?Hsd; cbn;
        unfold Path.len in *; (split; [assumption|]); left; lia.
Qed.

(** The extension of a name is what follows its last dot, when something
    precedes and something follows that dot. *)
Lemma extname_last_dot (stem rest : string) :
  stem <> EmptyString -> rest <> EmptyString ->
  Js.includes (stem ++ String Path.dot rest) "/" = false ->
  Js.includes rest "." = false ->
  Path.extname (stem ++ String Path.dot rest) = String Path.dot rest.
Proof.
  intros Hstem Hrest Hslash Hdot. unfold Path.extname.
  assert (Ls : 0 < Path.len stem)
    by (destruct stem; [contradiction | unfold Path.len; simpl; lia]).
  assert (Lr : 0 < Path.len rest)
    by (destruct rest; [contradiction | unfold Path.len; simpl; lia]).
  assert (Lp : Path.len (stem ++ String Path.dot rest)
               = Path.len stem + 1 + Path.len rest)
    by (unfold Path.len; rewrite length_app; simpl; lia).
  match goal with
  | |- context [Path.extnameLoop ?p ?n ?s] =>
      pose proof (extnameLoop_last_dot stem rest Hslash Hdot n s) as B;
      set (st := Path.extnameLoop p n s) in *
  end.
  cbn zeta in B. destruct B as (Bp & Bd & Be & Bs).
  { split; [reflexivity|]. left. cbn. unfold Path.len in *.
    rewrite length_app. simpl. lia. }
  specialize (Bs Ls). rewrite Bp, Bd, Be.
  replace (Path.len stem =? -1) with false by (symmetry; apply Z.eqb_neq; lia).
  replace (Path.len stem + 1 + Path.len rest =? -1) with false
    by (symmetry; apply Z.eqb_neq; lia).
  replace (Path.preDotState st =? 0) with false
    by (symmetry; apply Z.eqb_neq; lia).
  replace (Path.len stem =? Path.len stem + 1 + Path.len rest - 1) with false
    by (symmetry; apply Z.eqb_neq; lia).
  rewrite andb_false_r. cbn [orb andb].
  unfold Path.slice. rewrite Lp.
  replace (Path.len stem <? 0) with false by (symmetry; apply Z.ltb_ge; lia).
  replace (Path.len stem + 1 + Path.len rest <? 0) with false
    by (symmetry; apply Z.ltb_ge; lia).
  rewrite Z.min_id, Z.min_l by lia.
  replace (Z.to_nat (Path.len stem)) with (String.length stem)
    by (unfold Path.len; lia).
  replace (Z.to_nat (Path.len stem + 1 + Path.len rest - Path.len stem))
    with (String.length (String Path.dot rest))
    by (unfold Path.len; simpl; lia).
  apply substring_suffix.
Qed.

End KeptEntries.

(** A name kept by the filter is a stem followed by its extension. *)
Lemma kept_name_parts (stem ext : string) :
  stem <> EmptyString -> toLowerCase ext = ".md" ->
  Js.includes (stem ++ ext) "/" = false ->
  Path.extname (stem ++ ext) = ext
  /\ Path.basename (stem ++ ext) (Path.extname (stem ++ ext)) = stem.
Proof.
  intros Hstem Hext Hslash.
  assert (E : Path.extname (stem ++ ext) = ext).
  { destruct (lower_md_spellings ext Hext) as [-> | [-> | [-> | ->]]];
      apply extname_last_dot; try assumption; try discriminate; reflexivity. }
  split; [exact E|]. rewrite E. apply basename_strips; [|exact Hslash].
  apply lower_md_nonempty, Hext.
Qed.

(** A name made of an accepted extension alone has no extension. *)
Lemma bare_extension_dropped (ext : string) :
  toLowerCase ext = ".md" -> Path.extname ext = EmptyString.
Proof.
  intros H.
  destruct (lower_md_spellings ext H) as [-> | [-> | [-> | ->]]];
    vm_compute; reflexivity.
Qed.

Lemma survives_parts (f : string) :
  Js.includes f "/" = false ->
  survives f = true ->
  exists stem, stem <> EmptyString /\ f = stem ++ Path.extname f
               /\ toLowerCase (Path.extname f) = ".md".
Proof.
  intros Hslash Hs. unfold survives in Hs. apply String.eqb_eq in Hs.
  destruct (extname_suffix f Hslash) as [stem E].
  exists stem. split; [|split; assumption].
  intros ->. cbn [String.append] in E.
  pose proof (bare_extension_dropped _ Hs) as B.
  rewrite <- E in B. rewrite B in Hs. now apply lower_md_nonempty in Hs.
Qed.

(** X1: when the how-to directory is readable, an identifier is listed
    exactly when it is not empty and the directory has an entry made of that
    identifier followed by [.md] in some letter case; entries without such
    an extension, or made of the extension alone, give no identifier. *)
Theorem X1_listed_iff_md_entry (w : World) (files : list string) :
  readHowToDir w = Returns files ->
  (forall f, In f files -> Js.includes f "/" = false) ->
  forall id,
    In id (listIdentifiers w) <->
    id <> EmptyString /\
    exists ext, toLowerCase ext = ".md" /\ In (id ++ ext) files.
Proof.
  intros Hr Hslash id.
  rewrite (listIdentifiers_readable w files Hr). unfold identifiersOf.
  rewrite in_map_iff. split.
  - intros [f [Hid Hf]]. apply filter_In in Hf as [Hin Hs].
    destruct (survives_parts f (Hslash f Hin) Hs) as (stem & Hne & E & Hext).
    assert (Hb : Path.basename f (Path.extname f) = stem).
    { rewrite E at 1. apply basename_strips.
      - apply lower_md_nonempty, Hext.
      - rewrite <- E. apply Hslash, Hin. }
    rewrite Hb in Hid. subst id. split; [exact Hne|].
    exists (Path.extname f). split; [exact Hext|]. now rewrite <- E.
  - intros [Hne [ext [Hext Hin]]].
    destruct (kept_name_parts id ext Hne Hext (Hslash _ Hin)) as [E B].
    exists (id ++ ext). split; [exact B|].
    apply filter_In. split; [exact Hin|].
    rewrite E. now apply String.eqb_eq.
Qed.

(** ** Listed identifiers can be retrieved *)

Lemma get_specific_listed (w : World) (filename : string) :
  In filename (listIdentifiers w) ->
  get_specific_aptos_resource filename w
  = (logged getAvailableHowToResources w, loadWith w filename followUpReminder).
Proof.
  intros Hin. unfold get_specific_aptos_resource.
  rewrite bind_getAvailable.
  apply arrayIncludes_In in Hin. rewrite Hin. cbn [negb].
  unfold bind, lift, ret, loadWith.
  destruct (readMarkdownFromDirectory w "how_to" filename); cbn;
    now rewrite app_nil_r.
Qed.

Lemma list_aptos_resources_run (w : World) :
  exists footer,
    list_aptos_resources w
    = (logged getAvailableHowToResources w,
       Returns (textContent
                  ("Available Aptos development resources:" ++ nl ++
                   Js.join nl (map (fun f => "- " ++ f) (listIdentifiers w))
                   ++ footer))).
Proof.
  unfold list_aptos_resources. rewrite bind_getAvailable.
  eexists. cbn. rewrite app_nil_r. reflexivity.
Qed.

(** X2: every identifier of the listing is shown by [list_aptos_resources]
    as a line of its own and is accepted by [get_specific_aptos_resource],
    which then reads that document and returns its content followed by the
    follow-up reminder, never the not-found text. *)
Theorem X2_listed_identifier_is_retrieved (w : World) (id : string) :
  In id (listIdentifiers w) ->
  (exists t, outcome list_aptos_resources w = Returns t
             /\ Js.includes (text t) ("- " ++ id) = true)
  /\ get_specific_aptos_resource id w
     = (logged getAvailableHowToResources w, loadWith w id followUpReminder)
  /\ (forall content,
        readMarkdownFromDirectory w "how_to" id = Returns content ->
        outcome (get_specific_aptos_resource id) w
          = Returns (textContent (content ++ followUpReminder))).
Proof.
  intros Hin. split; [|split].
  - destruct (list_aptos_resources_run w) as [footer E].
    eexists. unfold outcome. rewrite E. split; [reflexivity|].
    cbn [text textContent].
    do 2 apply includes_app_l. apply includes_app_r, includes_join.
    apply in_map_iff. exists id. split; [reflexivity | exact Hin].
  - apply get_specific_listed, Hin.
  - intros content Hc. unfold outcome.
    rewrite (get_specific_listed w id Hin). unfold loadWith. now rewrite Hc.
Qed.

(** ** Failing readers *)

(** X3: no tool catches a failure of a document reader: when the reader
    it calls rejects, the build tools, the retrieval of a listed identifier,
    the explicit-resource path and the single-match path all reject with
    the same error, and none of them returns a text. *)
Theorem X3_reader_failure_propagates (w : World) (err : string) :
  (readAllMarkdownFromDirectories w ["management"; "move"] = Throws err ->
   build_smart_contract_on_aptos w = ([], Throws err))
  /\ (readAllMarkdownFromDirectories w ["frontend"] = Throws err ->
      build_ui_frontend_on_aptos w = ([], Throws err))
  /\ (readAllMarkdownFromDirectories w ["frontend"; "move"; "management"]
        = Throws err ->
      build_dapp_on_aptos w = ([], Throws err))
  /\ (forall id,
        In id (listIdentifiers w) ->
        readMarkdownFromDirectory w "how_to" id = Throws err ->
        outcome (get_specific_aptos_resource id) w = Throws err)
  /\ (forall args name,
        specific_resource args = Some name -> name <> EmptyString ->
        readMarkdownFromDirectory w "how_to" name = Throws err ->
        get_aptos_resources args w = ([], Throws err))
  /\ (forall args query id,
        context args = Some query -> query <> EmptyString ->
        Js.truthy (specific_resource args) = false ->
        relevantResources (listIdentifiers w) query = [id] ->
        readMarkdownFromDirectory w "how_to" id = Throws err ->
        outcome (get_aptos_resources args) w = Throws err).
Proof.
  repeat split.
  - intros H. unfold build_smart_contract_on_aptos, bind, lift. now rewrite H.
  - intros H. unfold build_ui_frontend_on_aptos, bind, lift. now rewrite H.
  - intros H. unfold build_dapp_on_aptos, bind, lift. now rewrite H.
  - intros id Hin H. unfold outcome.
    rewrite (get_specific_listed w id Hin). unfold loadWith. now rewrite H.
  - intros args name Hs Hne H. unfold get_aptos_resources.
    rewrite Hs, (whenTruthy_nonempty _ Hne). unfold bind, lift. now rewrite H.
  - intros args query id Hc Hq Hs Hm H. unfold outcome.
    rewrite (get_aptos_resources_context w args query Hc Hq Hs), Hm.
    unfold loadWith. now rewrite H.
Qed.

(** ** An identifier given as context *)

Lemma matchesContext_self (id : string) :
  matchesContext (toLowerCase id) id = true.
Proof.
  unfold matchesContext. cbn zeta.
  repeat match goal with
         | |- (if ?c then _ else _) = true =>
             let E := fresh "E" in destruct c eqn:E; [reflexivity|]
         end.
  apply includes_refl.
Qed.

Lemma two_members_length {A : Type} (x y : A) (l : list A) :
  In x l -> In y l -> x <> y -> (1 < List.length l)%nat.
Proof.
  intros Hx Hy Hne. destruct l as [|a [|b rest]]; simpl in *.
  - contradiction.
  - destruct Hx as [<-|[]], Hy as [<-|[]]. now contradiction Hne.
  - lia.
Qed.

(** X5: when the exact name of a listed identifier triggers a keyword
    group and another listed identifier passes the filter of that group,
    the context path answers that name with the list of matches and reads
    no document; only the retrieval by file name returns the document. *)
Theorem X5_exact_name_with_shared_keyword
    (w : World) (id other : string) (g : MatcherSpec.KeywordGroup) :
  In id (listIdentifiers w) -> In other (listIdentifiers w) -> id <> other ->
  MatcherSpec.firstGroup (toLowerCase id) = Some g ->
  existsb (Js.includes (toLowerCase other)) (MatcherSpec.filters g) = true ->
  let matches := relevantResources (listIdentifiers w) id in
  In id matches /\ In other matches
  /\ outcome (get_aptos_resources
                {| context := Some id; specific_resource := None |}) w
     = Returns (textContent (multipleMatchesText id matches))
  /\ outcome (get_specific_aptos_resource id) w
     = loadWith w id followUpReminder.
Proof.
  intros Hid Hother Hne Hg Hf matches.
  assert (Hq : id <> EmptyString).
  { intros ->. rewrite lower_empty in Hg. discriminate Hg. }
  assert (Hmid : In id matches).
  { unfold matches, relevantResources. apply filter_In. split; [exact Hid|].
    apply matchesContext_self. }
  assert (Hmo : In other matches).
  { unfold matches. rewrite relevantResources_matchResult.
    unfold MatcherSpec.matchResult. apply filter_In. split; [exact Hother|].
    unfold MatcherSpec.selectedFilter. rewrite Hg. exact Hf. }
  split; [exact Hmid|]. split; [exact Hmo|]. split.
  - unfold outcome.
    rewrite (get_aptos_resources_context w
               {| context := Some id; specific_resource := None |}
               id eq_refl Hq eq_refl).
    cbn [snd].
    pose proof (two_members_length id other matches Hmid Hmo Hne) as Hlen.
    fold matches. destruct matches as [|a [|b rest]]; simpl in Hlen; try lia.
    reflexivity.
  - unfold outcome. now rewrite (get_specific_listed w id Hid).
Qed.

(** ** Context queries without a listing *)

(** X6: when the how-to directory cannot be read, every non-empty context
    query is answered with the no-match text over an empty listing, after
    one line on the error console; no document is read. *)
Theorem X6_context_query_without_directory
    (w : World) (err : string) (args : ResourceArgs) (query : string) :
  readHowToDir w = Throws err ->
  context args = Some query -> query <> EmptyString ->
  Js.truthy (specific_resource args) = false ->
  get_aptos_resources args w
  = (["Error reading how_to directory: " ++ err],
     Returns (textContent (noMatchText query []))).
Proof.
  intros Hr Hc Hq Hs.
  rewrite (get_aptos_resources_context w args query Hc Hq Hs).
  unfold logged.
  rewrite (listIdentifiers_unreadable w err Hr), (getAvailable_unreadable w err Hr).
  reflexivity.
Qed.

(** ** The advice of [debug_aptos_issue] and the matcher *)

Lemma debug_advises_context (args : DebugIssue.Args) :
  Js.includes (text (DebugIssue.execute args))
    ("- get_aptos_resources with context: " ++ dq ++
     DebugIssue.contextName (DebugIssue.context args) ++ dq ++ nl) = true.
Proof.
  unfold DebugIssue.execute. cbn zeta. cbn [text textContent].
  apply includes_app_l, includes_refl.
Qed.

Lemma debug_names_resources (args : DebugIssue.Args) :
  DebugIssue.context args <> DebugIssue.other ->
  Js.includes (text (DebugIssue.execute args))
    ("1. Consult these specific Aptos resources: " ++
     Js.join ", "
       (DebugIssue.resourcesFor (DebugIssue.contextName (DebugIssue.context args)))
     ++ nl) = true.
Proof.
  intros Hc. unfold DebugIssue.execute. cbn zeta. cbn [text textContent].
  replace (0 <? List.length
             (DebugIssue.resourcesFor
                (DebugIssue.contextName (DebugIssue.context args))))%nat
    with true
    by (destruct (DebugIssue.context args); try reflexivity; contradiction).
  do 9 apply includes_app_r. apply includes_app_l, includes_refl.
Qed.

(** X7: [debug_aptos_issue] advises to call [get_aptos_resources] with
    the name of the context as context.  For the contexts wallet_connection,
    transaction_signing and api_setup every resource it recommends, when
    available, is matched by that query; for move_contract,
    frontend_integration and deployment the recommended name is never
    matched by it, whatever the listing; for other nothing is recommended. *)
Theorem X7_debug_advice_against_matcher
    (c : DebugIssue.DevContext) (r : string) (files : list string) :
  In r (DebugIssue.resourcesFor (DebugIssue.contextName c)) ->
  (forall args, DebugIssue.context args = c ->
     Js.includes (text (DebugIssue.execute args))
       ("- get_aptos_resources with context: " ++ dq ++
        DebugIssue.contextName c ++ dq ++ nl) = true
     /\ Js.includes (text (DebugIssue.execute args))
          ("1. Consult these specific Aptos resources: " ++
           Js.join ", " (DebugIssue.resourcesFor (DebugIssue.contextName c))
           ++ nl) = true)
  /\ match c with
     | DebugIssue.wallet_connection
     | DebugIssue.transaction_signing
     | DebugIssue.api_setup =>
         In r files -> In r (relevantResources files (DebugIssue.contextName c))
     | _ => ~ In r (relevantResources files (DebugIssue.contextName c))
     end.
Proof.
  intros Hr. split.
  - intros args <-. split.
    + apply debug_advises_context.
    + apply debug_names_resources. intros E. rewrite E in Hr. exact Hr.
  - destruct c; cbn in Hr;
      repeat (destruct Hr as [<-|Hr]); try contradiction;
      cbn [DebugIssue.contextName];
      try (intros Hin; apply filter_In; split;
           [exact Hin
           | unfold matchesContext; lower_literals; vm_compute; reflexivity]);
      (intros Hin; apply filter_In in Hin as [_ Hm];
       unfold matchesContext in Hm;
       match type of Hm with
       | ?m = true =>
           assert (E : m = false) by (lower_literals; vm_compute; reflexivity);
           rewrite E in Hm; discriminate Hm
       end).
Qed.

(** ** The points of [validate_current_implementation] *)

Lemma forEachIndexed_appendPoint (points : list string) (index : nat) (acc : string) :
  forEachIndexed ValidateImplementation.appendPoint points index acc
  = acc ++ numberedFrom index points.
Proof.
  revert index acc. induction points as [|p rest IH]; intros index acc.
  - simpl. now rewrite app_empty_r.
  - cbn [forEachIndexed numberedFrom]. rewrite IH.
    unfold ValidateImplementation.appendPoint. now rewrite append_assoc.
Qed.

Lemma numberedFrom_four (p1 p2 p3 p4 : string) :
  numberedFrom 0 [p1; p2; p3; p4]
  = "1. " ++ p1 ++ nl ++ "2. " ++ p2 ++ nl ++ "3. " ++ p3 ++ nl ++
    "4. " ++ p4 ++ nl.
Proof.
  cbn [numberedFrom]. rewrite !append_assoc, app_empty_r. reflexivity.
Qed.

(** X8: for every implementation area the table has an entry of four
    points, so the generic default list is never used, and the returned text
    holds, between the two headings, those four points once each, in the
    order of the table and numbered 1 to 4. *)
Theorem X8_validation_points_numbered (args : ValidateImplementation.Args) :
  exists p1 p2 p3 p4,
    recordGet
      (ValidateImplementation.areaName
         (ValidateImplementation.implementation_area args))
      ValidateImplementation.validationPoints = Some [p1; p2; p3; p4]
    /\ Js.includes (text (ValidateImplementation.execute args))
         (("📋 VALIDATION POINTS:" ++ nl) ++
          ("1. " ++ p1 ++ nl ++ "2. " ++ p2 ++ nl ++ "3. " ++ p3 ++ nl ++
           "4. " ++ p4 ++ nl) ++
          (nl ++ "🔄 NEXT STEPS:" ++ nl)) = true.
Proof.
  assert (H : forall points,
            ValidateImplementation.pointsFor
              (ValidateImplementation.areaName
                 (ValidateImplementation.implementation_area args)) = points ->
            Js.includes (text (ValidateImplementation.execute args))
              (("📋 VALIDATION POINTS:" ++ nl) ++ numberedFrom 0 points ++
               (nl ++ "🔄 NEXT STEPS:" ++ nl)) = true).
  { intros points <-. unfold ValidateImplementation.execute. cbn zeta.
    cbn [text textContent]. rewrite forEachIndexed_appendPoint.
    assert (K : forall s, Js.includes s
                  (("📋 VALIDATION POINTS:" ++ nl) ++
                   numberedFrom 0
                     (ValidateImplementation.pointsFor
                        (ValidateImplementation.areaName
                           (ValidateImplementation.implementation_area args))) ++
                   (nl ++ "🔄 NEXT STEPS:" ++ nl)) = true ->
                Js.includes
                  match whenTruthy (ValidateImplementation.specific_concern args) with
                  | Some specific_concern =>
                      (s ++ (nl ++ "⚠️  Specific Concern: " ++ specific_concern ++ nl))
                      ++ ("Consider using 'debug_aptos_issue' with this specific concern for targeted guidance."
                          ++ nl)
                  | None => s
                  end
                  (("📋 VALIDATION POINTS:" ++ nl) ++
                   numberedFrom 0
                     (ValidateImplementation.pointsFor
                        (ValidateImplementation.areaName
                           (ValidateImplementation.implementation_area args))) ++
                   (nl ++ "🔄 NEXT STEPS:" ++ nl)) = true).
    { intros s Hs.
      destruct (whenTruthy (ValidateImplementation.specific_concern args));
        [do 2 apply includes_app_r|]; exact Hs. }
    apply K. do 3 apply includes_app_r.
    rewrite !append_assoc. apply includes_app_l.
    rewrite <- !append_assoc. rewrite !append_assoc. apply includes_refl. }
  destruct args as [area concern approach]. cbn [ValidateImplementation.implementation_area] in *.
  destruct area; do 4 eexists; (split; [reflexivity|]);
    rewrite <- numberedFrom_four; apply H; reflexivity.
Qed.

(** ** Discovery as a rule on file names *)

Lemma asciiLowerCase_length (s : string) :
  String.length (Js.asciiLowerCase s) = String.length s.
Proof. induction s; simpl; congruence. Qed.

Lemma substring_length (s : string) (n m : nat) :
  (n + m <= String.length s)%nat ->
  String.length (String.substring n m s) = m.
Proof.
  revert n m. induction s as [|c s IH]; intros n m H.
  - simpl in H. destruct n, m; simpl; lia.
  - destruct n as [|n].
    + destruct m as [|m]; [reflexivity|]. simpl in *. rewrite IH; lia.
    + simpl in *. apply IH. lia.
Qed.

Lemma includesMd_simple (f : string) :
  Js.includes f "/" = false ->
  survives f = endsWithMd f.
Proof.
  intros Hslash. unfold endsWithMd.
  destruct (survives f) eqn:Hs; symmetry.
  - destruct (survives_parts f Hslash Hs) as (stem & Hne & E & Hext).
    assert (L3 : String.length (Path.extname f) = 3%nat)
      by (apply lower_md_length, Hext).
    assert (Ls : (0 < String.length stem)%nat)
      by (destruct stem; [contradiction | simpl; lia]).
    assert (Lf : String.length f = (String.length stem + 3)%nat)
      by (rewrite E at 1; rewrite length_app; lia).
    apply andb_true_iff. split; [apply Nat.ltb_lt; lia|].
    apply String.eqb_eq.
    replace (String.length f - 3)%nat with (String.length stem) by lia.
    rewrite E at 1. rewrite <- L3 at 1. now rewrite substring_suffix.
  - apply not_true_iff_false. intros H. apply andb_true_iff in H as [H1 H2].
    apply Nat.ltb_lt in H1. apply String.eqb_eq in H2.
    pose proof (substring_split f (String.length f - 3) ltac:(lia)) as E.
    replace (String.length f - (String.length f - 3))%nat with 3%nat in E by lia.
    assert (Hne : String.substring 0 (String.length f - 3) f <> EmptyString).
    { intros Hempty. apply (f_equal String.length) in Hempty.
      rewrite substring_length in Hempty by lia. simpl in Hempty. lia. }
    rewrite E in Hslash.
    destruct (kept_name_parts _ _ Hne H2 Hslash) as [Ex _].
    rewrite <- E in Ex.
    unfold survives in Hs. rewrite Ex, H2 in Hs. discriminate Hs.
Qed.

Lemma identifier_simple (f : string) :
  Js.includes f "/" = false ->
  survives f = true ->
  Path.basename f (Path.extname f) = withoutLastThree f.
Proof.
  intros Hslash Hs. unfold withoutLastThree.
  destruct (survives_parts f Hslash Hs) as (stem & Hne & E & Hext).
  assert (L3 : String.length (Path.extname f) = 3%nat)
    by (apply lower_md_length, Hext).
  assert (Lf : String.length f = (String.length stem + 3)%nat)
    by (rewrite E at 1; rewrite length_app; lia).
  replace (String.length f - 3)%nat with (String.length stem) by lia.
  assert (B : Path.basename f (Path.extname f) = stem).
  { rewrite E at 1. apply basename_strips.
    - intros Hempty. rewrite Hempty in L3. discriminate L3.
    - now rewrite <- E. }
  rewrite B. rewrite E at 1. now rewrite substring_prefix.
Qed.

(** X9: on a readable how-to directory, discovery is the following rule
    on the entry names, in the order of the directory and one identifier per
    kept entry: keep a name when it is longer than three characters and its
    last three characters are [.md] in some letter case, and cut these three
    characters off. *)
Theorem X9_discovery_rule (w : World) (files : list string) :
  readHowToDir w = Returns files ->
  (forall f, In f files -> Js.includes f "/" = false) ->
  getAvailableHowToResources w
  = ([], Returns (map withoutLastThree (filter endsWithMd files))).
Proof.
  intros Hr Hslash. rewrite (getAvailable_readable w files Hr).
  unfold identifiersOf. do 2 f_equal.
  fold survives.
  rewrite (filter_ext_in survives endsWithMd files)
    by (intros f Hf; apply includesMd_simple, Hslash, Hf).
  apply map_ext_in. intros f Hf. apply filter_In in Hf as [Hin Hk].
  apply identifier_simple; [apply Hslash, Hin|].
  now rewrite (includesMd_simple f (Hslash f Hin)).
Qed.

(** ** What [debug_aptos_issue] reads of its parameters *)

(** X10: the guidance of [debug_aptos_issue] is determined by the issue
    description, the context and the error message when it is not empty:
    the code snippet is never used, and an empty error message gives the
    text of a call without error message. *)
Theorem X10_debug_ignores_code_snippet (a b : DebugIssue.Args) :
  DebugIssue.issue_description a = DebugIssue.issue_description b ->
  DebugIssue.context a = DebugIssue.context b ->
  whenTruthy (DebugIssue.error_message a) = whenTruthy (DebugIssue.error_message b) ->
  DebugIssue.execute a = DebugIssue.execute b.
Proof.
  intros Hi Hc He. unfold DebugIssue.execute. now rewrite Hi, Hc, He.
Qed.

(** ** Duplicates in the listing *)

Lemma append_inv_head (a b c : string) : a ++ b = a ++ c -> b = c.
Proof.
  induction a as [|x a IH]; simpl; intros H; [exact H|].
  injection H as H. apply IH, H.
Qed.

Lemma NoDup_map_In_inj {A B : Type} (f : A -> B) (l : list A) (a b : A) :
  NoDup (map f l) -> In a l -> In b l -> f a = f b -> a = b.
Proof.
  induction l as [|x l IH]; intros Hnd Ha Hb Hf; [contradiction|].
  simpl in Hnd. inversion Hnd as [|y m Hnin Hnd']; subst.
  destruct Ha as [->|Ha], Hb as [->|Hb]; try reflexivity.
  - exfalso. apply Hnin. rewrite Hf. apply in_map, Hb.
  - exfalso. apply Hnin. rewrite <- Hf. apply in_map, Ha.
  - apply IH; assumption.
Qed.

(** C9 (amended): the listing is empty when the how-to directory cannot be
    read, and for a readable directory (its entries being distinct file
    names) it has no duplicate identifier exactly when no two entries made
    of the same non-empty stem followed by [.md] in some letter case differ
    in the letter case of that extension. *)
Theorem C9_no_duplicates_unless_extension_case (w : World) :
  (forall err, readHowToDir w = Throws err ->
     listIdentifiers w = [] /\ NoDup (listIdentifiers w))
  /\ (forall files,
        readHowToDir w = Returns files ->
        NoDup files ->
        (forall f, In f files -> Js.includes f "/" = false) ->
        (NoDup (listIdentifiers w) <->
         forall stem ext ext',
           stem <> EmptyString ->
           toLowerCase ext = ".md" -> toLowerCase ext' = ".md" ->
           In (stem ++ ext) files -> In (stem ++ ext') files ->
           ext = ext')).
Proof.
  split.
  - intros err E. rewrite (listIdentifiers_unreadable w err E).
    split; [reflexivity | constructor].
  - intros files E Hnd Hslash.
    rewrite (listIdentifiers_readable w files E). unfold identifiersOf.
    fold survives. split.
    + intros Hids stem ext ext' Hstem He He' Hin Hin'.
      destruct (kept_name_parts stem ext Hstem He (Hslash _ Hin)) as [X B].
      destruct (kept_name_parts stem ext' Hstem He' (Hslash _ Hin')) as [X' B'].
      assert (Hs : survives (stem ++ ext) = true)
        by (unfold survives; rewrite X; now apply String.eqb_eq).
      assert (Hs' : survives (stem ++ ext') = true)
        by (unfold survives; rewrite X'; now apply String.eqb_eq).
      apply (append_inv_head stem).
      apply (NoDup_map_In_inj _ _ _ _ Hids).
      * apply filter_In. split; assumption.
      * apply filter_In. split; assumption.
      * now rewrite B, B'.
    + intros Hcase. apply NoDup_map_NoDup_ForallPairs.
      * intros f g Hf Hg Hid.
        apply filter_In in Hf as [Hf Hsf], Hg as [Hg Hsg].
        destruct (survives_parts f (Hslash f Hf) Hsf) as (sf & Hnf & Ef & Lf).
        destruct (survives_parts g (Hslash g Hg) Hsg) as (sg & Hng & Eg & Lg).
        assert (Bf : Path.basename f (Path.extname f) = sf).
        { rewrite Ef at 1. apply basename_strips;
            [apply lower_md_nonempty, Lf | rewrite <- Ef; apply Hslash, Hf]. }
        assert (Bg : Path.basename g (Path.extname g) = sg).
        { rewrite Eg at 1. apply basename_strips;
            [apply lower_md_nonempty, Lg | rewrite <- Eg; apply Hslash, Hg]. }
        rewrite Bf, Bg in Hid. subst sg.
        rewrite Ef, Eg. f_equal.
        apply (Hcase sf); try assumption; [now rewrite <- Ef | now rewrite <- Eg].
      * apply NoDup_filter, Hnd.
Qed.

(** A name ending in a three-character extension, taken apart. *)
Lemma split_last_three (stem ext f : string) :
  String.length ext = 3%nat -> stem ++ ext = f ->
  stem = withoutLastThree f
  /\ ext = String.substring (String.length f - 3) 3 f.
Proof.
  intros L <-. unfold withoutLastThree. rewrite length_app, L.
  replace (String.length stem + 3 - 3)%nat with (String.length stem) by lia.
  rewrite substring_prefix. split; [reflexivity|].
  rewrite <- L. now rewrite substring_suffix.
Qed.

(** ** The result policy of a context query *)

Lemma multipleMatchesText_lists (query : string) (matches : list string) (id : string) :
  In id matches ->
  Js.includes (multipleMatchesText query matches) ("- " ++ id) = true.
Proof.
  intros H. rewrite multipleMatchesText_parts.
  apply includes_app_l, includes_app_r, includes_join.
  apply in_map_iff. exists id. split; [reflexivity | exact H].
Qed.

(** C2: for a non-empty context query (and no explicit resource), one
    match reads that document and returns its content followed by the
    reminder; several matches return the heading, one line per matching
    identifier and the next steps, a text that holds every matching
    identifier and does not depend on what the documents hold; no match
    returns the listing of all available identifiers with the invitation to
    refine the context or to use an exact file name. *)
Theorem C2_result_policy (w : World) (args : ResourceArgs) (query : string) :
  context args = Some query -> query <> EmptyString ->
  Js.truthy (specific_resource args) = false ->
  let available := listIdentifiers w in
  let matches := relevantResources available query in
  (forall id, matches = [id] ->
     outcome (get_aptos_resources args) w
       = loadWith w id (autoSelectedReminder query)
     /\ In id available
     /\ forall content,
          readMarkdownFromDirectory w "how_to" id = Returns content ->
          outcome (get_aptos_resources args) w
            = Returns (textContent (content ++ autoSelectedReminder query))
          /\ Js.startsWith (content ++ autoSelectedReminder query) content = true)
  /\ ((1 < List.length matches)%nat ->
      outcome (get_aptos_resources args) w
        = Returns (textContent (multipleMatchesText query matches))
      /\ multipleMatchesText query matches
         = multipleMatchesHeader query
           ++ Js.join nl (map (fun r => "- " ++ r) matches)
           ++ multipleMatchesFooter
      /\ (forall id, In id matches ->
            In id available
            /\ Js.includes (multipleMatchesText query matches) ("- " ++ id) = true)
      /\ forall reader,
           outcome (get_aptos_resources args) (withReader w reader)
             = outcome (get_aptos_resources args) w)
  /\ (matches = [] ->
      outcome (get_aptos_resources args) w
        = Returns (textContent (noMatchText query available))
      /\ (forall id, In id available ->
            Js.includes (noMatchText query available) id = true)
      /\ Js.includes (noMatchText query available)
           "Use 'get_specific_aptos_resource' with exact filename" = true
      /\ Js.includes (noMatchText query available)
           "Refine your context and try again" = true).
Proof.
  intros Hc Hq Hs available matches.
  assert (R := get_aptos_resources_context w args query Hc Hq Hs).
  fold available in R. fold matches in R.
  assert (Hsub : forall id, In id matches -> In id available).
  { intros id H. unfold matches, relevantResources in H.
    now apply filter_In in H as [H _]. }
  split; [|split].
  - intros id E.
    assert (Hout : outcome (get_aptos_resources args) w
                   = loadWith w id (autoSelectedReminder query))
      by (unfold outcome; rewrite R, E; reflexivity).
    split; [exact Hout|]. split.
    + apply Hsub. rewrite E. left. reflexivity.
    + intros content Hread. rewrite Hout. unfold loadWith. rewrite Hread.
      split; [reflexivity | apply startsWith_app].
  - intros Hlen.
    assert (Hout : outcome (get_aptos_resources args) w
                   = Returns (textContent (multipleMatchesText query matches))).
    { unfold outcome. rewrite R. cbn [snd].
      destruct matches as [|a [|b rest]]; simpl in Hlen; try lia. reflexivity. }
    split; [exact Hout|]. split; [apply multipleMatchesText_parts|]. split.
    + intros id Hin. split; [apply Hsub, Hin|].
      apply multipleMatchesText_lists, Hin.
    + intros reader. rewrite Hout. unfold outcome.
      rewrite (get_aptos_resources_context (withReader w reader) args query Hc Hq Hs).
      rewrite listIdentifiers_withReader. fold available. fold matches. cbn [snd].
      destruct matches as [|a [|b rest]]; simpl in Hlen; try lia. reflexivity.
  - intros E. split; [unfold outcome; rewrite R, E; reflexivity|].
    split; [intros id; apply noMatchText_lists|]. split.
    + unfold noMatchText. do 11 apply includes_app_l.
      apply includes_app_r. vm_compute. reflexivity.
    + unfold noMatchText. do 15 apply includes_app_l. vm_compute. reflexivity.
Qed.

(** X4: on the context path (no explicit resource), a non-empty context
    that lowercases to the same text as an available identifier always
    matches that identifier, so the no-match branch is never taken: the
    tool reads that document, returning its content followed by the reminder
    whenever the reader returns it, or it returns the list of matches, which
    holds a line for that identifier. *)
Theorem X4_identifier_as_context_matches_itself
    (w : World) (args : ResourceArgs) (query id : string) :
  context args = Some query -> query <> EmptyString ->
  Js.truthy (specific_resource args) = false ->
  toLowerCase query = toLowerCase id ->
  In id (listIdentifiers w) ->
  In id (relevantResources (listIdentifiers w) query)
  /\ (outcome (get_aptos_resources args) w
        = loadWith w id (autoSelectedReminder query)
      \/ outcome (get_aptos_resources args) w
         = Returns (textContent
                      (multipleMatchesText query
                         (relevantResources (listIdentifiers w) query))))
  /\ (forall content,
        readMarkdownFromDirectory w "how_to" id = Returns content ->
        outcome (get_aptos_resources args) w
          = Returns (textContent (content ++ autoSelectedReminder query))
        \/ (outcome (get_aptos_resources args) w
              = Returns (textContent
                           (multipleMatchesText query
                              (relevantResources (listIdentifiers w) query)))
            /\ Js.includes
                 (multipleMatchesText query
                    (relevantResources (listIdentifiers w) query))
                 ("- " ++ id) = true)).
Proof.
  intros Hc Hq Hs Hlow Hin.
  assert (Hm : In id (relevantResources (listIdentifiers w) query)).
  { unfold relevantResources. apply filter_In. split; [exact Hin|].
    rewrite Hlow. apply matchesContext_self. }
  split; [exact Hm|].
  pose proof (multipleMatchesText_lists query _ id Hm) as Hl.
  unfold outcome.
  rewrite (get_aptos_resources_context w args query Hc Hq Hs). cbn [snd].
  destruct (relevantResources (listIdentifiers w) query) as [|a [|b rest]].
  - contradiction.
  - destruct Hm as [->|[]]. split; [left; reflexivity|].
    intros content Hr. left. unfold loadWith. now rewrite Hr.
  - split; [right; reflexivity|].
    intros content _. right. split; [reflexivity | exact Hl].
Qed.

End Server.

(** * The tools on sample worlds *)

#[global] Existing Instance asciiEngine.

(** Lowercasing on ASCII texts. *)
Example toLowerCase_examples :
  map toLowerCase ["Wallet GAS fee issue"; "README.MD"; "how_to_Sign-09_AZ"]
  = ["wallet gas fee issue"; "readme.md"; "how_to_sign-09_az"].
Proof. vm_compute. reflexivity. Qed.

(** The examples of Node's documentation and a few corner cases. *)
Example extname_examples :
  map Path.extname
    ["index.html"; "index.coffee.md"; "index."; "index"; ".index";
     ".index.md"; ".."; "..md"; "a/b.md/"; "dir.d/file"; "README.MD"]
  = [".html"; ".md"; "."; ""; ""; ".md"; ""; ".md"; ".md"; ""; ".MD"].
Proof. vm_compute. reflexivity. Qed.

Example basename_examples :
  map (fun p => Path.basename (fst p) (snd p))
    [("/foo/bar/baz/asdf/quux.html", ".html"); ("/foo/bar/baz/asdf/quux.html", "");
     ("quux.html", ".htm"); ("a.md", ".md"); ("a.MD", ".MD"); (".md", ".md");
     ("dir/x.md//", ".md"); ("aaa", "a")]
  = ["quux"; "quux.html"; "quux.html"; "a"; "a"; ""; "x"; "aa"].
Proof. vm_compute. reflexivity. Qed.

Example fixture_listing :
  getAvailableHowToResources fixtureWorld =
  ([], Returns ["how_to_add_wallet_connection"; "how_to_sign_and_submit_transaction";
                "how_to_integrate_fungible_asset"]).
Proof. vm_compute. reflexivity. Qed.

Example fixture_wallet_connection :
  outcome (get_aptos_resources
             {| context := Some "wallet connection"; specific_resource := None |})
    fixtureWorld
  = Returns (textContent ("# how_to/how_to_add_wallet_connection" ++
                          autoSelectedReminder "wallet connection")).
Proof. vm_compute. reflexivity. Qed.

Example fixture_nonexistent_topic :
  outcome (get_aptos_resources
             {| context := Some "zzz-nonexistent-topic"; specific_resource := None |})
    fixtureWorld
  = Returns (textContent
               (noMatchText "zzz-nonexistent-topic"
                  ["how_to_add_wallet_connection"; "how_to_sign_and_submit_transaction";
                   "how_to_integrate_fungible_asset"])).
Proof. vm_compute. reflexivity. Qed.

(** A query naming both wallet and gas, over identifiers of both kinds. *)
Lemma C1_witness_wallet_gas :
  relevantResources
    ["how_to_add_wallet_connection"; "how_to_use_gas_station";
     "how_to_integrate_wallet_selector_ui"]
    "Wallet GAS fee issue"
  = ["how_to_add_wallet_connection"; "how_to_integrate_wallet_selector_ui"].
Proof.
  destruct (C1_first_triggered_group_selects_filter
              ["how_to_add_wallet_connection"; "how_to_use_gas_station";
               "how_to_integrate_wallet_selector_ui"]
              "Wallet GAS fee issue") as [_ [_ [H _]]].
  destruct H as [E _]; [reflexivity | reflexivity |].
  rewrite E. reflexivity.
Defined.

(** A query in capitals outside every keyword group: the identifier that
    holds it in small letters is matched, the other one is not. *)
Lemma C7_witness_connection :
  In "how_to_add_wallet_connection"
    (relevantResources
       ["how_to_add_wallet_connection"; "how_to_sign_and_submit_transaction"]
       "CONNECTION")
  /\ ~ In "how_to_sign_and_submit_transaction"
         (relevantResources
            ["how_to_add_wallet_connection"; "how_to_sign_and_submit_transaction"]
            "CONNECTION").
Proof.
  assert (N : noGroupTriggers (toLowerCase "CONNECTION"))
    by (apply noGroupTriggers_dec; reflexivity).
  split.
  - apply (C7_fallback_is_substring_test
             ["how_to_add_wallet_connection"; "how_to_sign_and_submit_transaction"]
             "CONNECTION" N).
    split; [left; reflexivity | reflexivity].
  - intros H.
    apply (C7_fallback_is_substring_test
             ["how_to_add_wallet_connection"; "how_to_sign_and_submit_transaction"]
             "CONNECTION" N) in H.
    destruct H as [_ H]. discriminate H.
Defined.

(** C9, as stated, fails: two distinct entries that differ in the letter
    case of the extension both pass the filter and give one identifier
    twice. *)
Lemma C9_counterexample_extension_case :
  readHowToDir twoSpellingsWorld = Returns ["guide.md"; "guide.MD"]
  /\ NoDup ["guide.md"; "guide.MD"]
  /\ getAvailableHowToResources twoSpellingsWorld = ([], Returns ["guide"; "guide"])
  /\ ~ NoDup (listIdentifiers twoSpellingsWorld).
Proof.
  split; [reflexivity|]. split.
  - constructor.
    + intros [H|[]]. discriminate.
    + constructor; [intros [] | constructor].
  - split; [vm_compute; reflexivity|].
    change (listIdentifiers twoSpellingsWorld) with
      (match outcome getAvailableHowToResources twoSpellingsWorld with
       | Returns files => files | Throws _ => [] end).
    replace (outcome getAvailableHowToResources twoSpellingsWorld)
      with (Returns (A:=list string) ["guide"; "guide"]) by (vm_compute; reflexivity).
    intros H. inversion H as [|x l Hnin _]. apply Hnin. left. reflexivity.
Qed.

(** Two guides with differently spelled extensions and different stems
    give two identifiers. *)
Lemma C9_witness_mixed_case :
  listIdentifiers mixedCaseWorld = ["README"; "guide"]
  /\ NoDup (listIdentifiers mixedCaseWorld).
Proof.
  split; [vm_compute; reflexivity|].
  apply (proj2 (C9_no_duplicates_unless_extension_case mixedCaseWorld)
           ["README.MD"; "guide.md"]).
  - reflexivity.
  - apply distinctNames_NoDup. reflexivity.
  - intros f [<-|[<-|[]]]; reflexivity.
  - intros stem ext ext' _ He He' Hin Hin'.
    apply lower_md_length in He, He'.
    destruct Hin as [Hin|[Hin|[]]], Hin' as [Hin'|[Hin'|[]]];
      destruct (split_last_three _ _ _ He (eq_sym Hin)) as [S1 ->];
      destruct (split_last_three _ _ _ He' (eq_sym Hin')) as [S2 ->];
      try reflexivity; rewrite S1 in S2; discriminate S2.
Defined.

(** The single-match case on the fixture: the content of the wallet
    guide, then the reminder. *)
Lemma C2_witness_wallet_connection :
  outcome (get_aptos_resources
             {| context := Some "Wallet Connection"; specific_resource := None |})
    fixtureWorld
  = Returns (textContent ("# how_to/how_to_add_wallet_connection"
                          ++ autoSelectedReminder "Wallet Connection")).
Proof.
  destruct (C2_result_policy fixtureWorld
              {| context := Some "Wallet Connection"; specific_resource := None |}
              "Wallet Connection" eq_refl ltac:(discriminate) eq_refl)
    as [H _].
  destruct (H "how_to_add_wallet_connection") as (_ & _ & K).
  - vm_compute. reflexivity.
  - destruct (K "# how_to/how_to_add_wallet_connection" eq_refl) as [E _].
    exact E.
Defined.

Example walletWorld_matches :
  relevantResources (listIdentifiers walletWorld) "wallet"
  = ["how_to_add_wallet_connection"; "how_to_integrate_wallet_selector_ui"].
Proof. vm_compute. reflexivity. Qed.

(** Two wallet guides, enumerated in the order of the directory. *)
Lemma C8_witness_two_wallet_guides :
  outcome (get_aptos_resources
             {| context := Some "wallet"; specific_resource := None |}) walletWorld
  = Returns (textContent
               (multipleMatchesHeader "wallet"
                ++ Js.join nl
                     (map (fun r => "- " ++ r)
                        (relevantResources (listIdentifiers walletWorld) "wallet"))
                ++ multipleMatchesFooter)).
Proof.
  destruct (C8_matches_in_discovery_order walletWorld
              {| context := Some "wallet"; specific_resource := None |}
              "wallet" eq_refl ltac:(discriminate) eq_refl)
    as (_ & _ & H & _).
  - vm_compute. lia.
  - exact H.
Defined.

(** The empty query on the fixture. *)
Lemma C3_witness_fixture :
  get_aptos_resources {| context := Some EmptyString; specific_resource := None |}
    fixtureWorld
  = (logged getAvailableHowToResources fixtureWorld,
     Returns (textContent (overviewText (listIdentifiers fixtureWorld)))).
Proof.
  destruct C3_empty_query_lists_everything as (_ & _ & _ & H & _).
  destruct (H fixtureWorld
              {| context := Some EmptyString; specific_resource := None |}
              eq_refl eq_refl) as [E _].
  exact E.
Defined.

(** C4, as stated, fails where the listing is empty: the answer for an
    unknown identifier then names no valid identifier at all. *)
Lemma C4_counterexample_empty_listing :
  listIdentifiers emptyWorld = []
  /\ ~ In "missing_id" (listIdentifiers emptyWorld)
  /\ outcome (get_specific_aptos_resource "missing_id") emptyWorld
     = Returns (textContent
                  ("Resource 'missing_id' not found. Available resources:" ++ nl))
  /\ ~ (exists id,
          In id (listIdentifiers emptyWorld) /\
          Js.includes
            ("Resource 'missing_id' not found. Available resources:" ++ nl) id
          = true).
Proof.
  split; [reflexivity|]. split; [intros []|].
  split; [vm_compute; reflexivity|].
  intros [id [[] _]].
Qed.

(** An unknown identifier on the fixture. *)
Lemma C4_witness_fixture :
  outcome (get_specific_aptos_resource "missing_id") fixtureWorld
  = Returns (textContent
               ("Resource '" ++ "missing_id" ++ "' not found. Available resources:"
                ++ nl ++ Js.join nl (listIdentifiers fixtureWorld))).
Proof.
  destruct (C4_unknown_identifier_lists_alternatives fixtureWorld "missing_id")
    as [H _].
  - replace (listIdentifiers fixtureWorld)
      with ["how_to_add_wallet_connection"; "how_to_sign_and_submit_transaction";
            "how_to_integrate_fungible_asset"] by (vm_compute; reflexivity).
    simpl. intuition discriminate.
  - exact H.
Defined.

(** The server started outside its package directory. *)
Lemma C5_witness_missing_directory :
  getAvailableHowToResources missingDirWorld
  = (["Error reading how_to directory: " ++
      "Error: ENOENT: no such file or directory, scandir '/home/user/src/resources/how_to'"],
     Returns []).
Proof.
  destruct (C5_unreadable_directory_is_empty_listing missingDirWorld
              "Error: ENOENT: no such file or directory, scandir '/home/user/src/resources/how_to'"
              eq_refl) as [H _].
  exact H.
Defined.


(** C10, as stated, fails for the empty string: supplied as
    [specific_resource], it is falsy, the context is not ignored and no
    document named by it is loaded. *)
Lemma C10_counterexample_empty_resource :
  outcome (get_aptos_resources
             {| context := Some "wallet connection";
                specific_resource := Some EmptyString |}) fixtureWorld
  = loadWith fixtureWorld "how_to_add_wallet_connection"
      (autoSelectedReminder "wallet connection")
  /\ outcome (get_aptos_resources
                {| context := Some "wallet connection";
                   specific_resource := Some EmptyString |}) fixtureWorld
     <> loadWith fixtureWorld EmptyString specificReminder.
Proof.
  split; [vm_compute; reflexivity|].
  vm_compute. intros H. discriminate H.
Qed.

(** An identifier that is not in the listing is passed to the reader. *)
Lemma C10_witness_unlisted_name :
  get_aptos_resources
    {| context := Some "wallet"; specific_resource := Some "not_in_listing" |}
    fixtureWorld
  = ([], loadWith fixtureWorld "not_in_listing" specificReminder).
Proof.
  destruct (C10_explicit_resource_is_loaded_directly fixtureWorld
              {| context := Some "wallet"; specific_resource := Some "not_in_listing" |}
              "not_in_listing" eq_refl ltac:(discriminate)) as [H _].
  exact H.
Defined.

(** The wallet guide of the fixture comes from its [.md] entry. *)
Lemma X1_witness_fixture :
  In "how_to_add_wallet_connection" (listIdentifiers fixtureWorld) <->
  "how_to_add_wallet_connection" <> EmptyString /\
  exists ext, toLowerCase ext = ".md" /\
              In ("how_to_add_wallet_connection" ++ ext)
                ["how_to_add_wallet_connection.md";
                 "how_to_sign_and_submit_transaction.md";
                 "how_to_integrate_fungible_asset.md"; "notes.txt"].
Proof.
  apply (X1_listed_iff_md_entry fixtureWorld).
  - vm_compute. reflexivity.
  - intros f Hf. simpl in Hf.
    repeat destruct Hf as [<-|Hf]; try (vm_compute; reflexivity). contradiction.
Defined.

(** The wallet guide of the fixture. *)
Lemma X2_witness_fixture :
  get_specific_aptos_resource "how_to_add_wallet_connection" fixtureWorld
  = (logged getAvailableHowToResources fixtureWorld,
     loadWith fixtureWorld "how_to_add_wallet_connection" followUpReminder).
Proof.
  destruct (X2_listed_identifier_is_retrieved fixtureWorld
              "how_to_add_wallet_connection") as (_ & H & _).
  - replace (listIdentifiers fixtureWorld)
      with ["how_to_add_wallet_connection"; "how_to_sign_and_submit_transaction";
            "how_to_integrate_fungible_asset"] by (vm_compute; reflexivity).
    left. reflexivity.
  - exact H.
Defined.

(** An explicit resource in a world without documents. *)
Lemma X3_witness_empty_world :
  get_aptos_resources
    {| context := None; specific_resource := Some "how_to_add_wallet_connection" |}
    emptyWorld
  = ([], Throws "Error: ENOENT").
Proof.
  destruct (X3_reader_failure_propagates emptyWorld "Error: ENOENT")
    as (_ & _ & _ & _ & H & _).
  apply (H _ "how_to_add_wallet_connection");
    [reflexivity | discriminate | reflexivity].
Defined.

(** The fungible-asset guide asked for by its name in capitals. *)
Lemma X4_witness_fixture :
  In "how_to_integrate_fungible_asset"
    (relevantResources (listIdentifiers fixtureWorld)
       "HOW_TO_INTEGRATE_FUNGIBLE_ASSET").
Proof.
  destruct (X4_identifier_as_context_matches_itself fixtureWorld
              {| context := Some "HOW_TO_INTEGRATE_FUNGIBLE_ASSET";
                 specific_resource := None |}
              "HOW_TO_INTEGRATE_FUNGIBLE_ASSET" "how_to_integrate_fungible_asset"
              eq_refl ltac:(discriminate) eq_refl eq_refl) as [H _].
  - replace (listIdentifiers fixtureWorld)
      with ["how_to_add_wallet_connection"; "how_to_sign_and_submit_transaction";
            "how_to_integrate_fungible_asset"] by (vm_compute; reflexivity).
    right. right. left. reflexivity.
  - exact H.
Defined.

(** The two wallet guides: the name of one lists both. *)
Lemma X5_witness_wallet_guides :
  outcome (get_aptos_resources
             {| context := Some "how_to_add_wallet_connection";
                specific_resource := None |}) walletWorld
  = Returns (textContent
               (multipleMatchesText "how_to_add_wallet_connection"
                  (relevantResources (listIdentifiers walletWorld)
                     "how_to_add_wallet_connection"))).
Proof.
  destruct (X5_exact_name_with_shared_keyword walletWorld
              "how_to_add_wallet_connection" "how_to_integrate_wallet_selector_ui"
              (MatcherSpec.group ["wallet"])) as (_ & _ & H & _).
  - replace (listIdentifiers walletWorld)
      with ["how_to_add_wallet_connection"; "how_to_sign_and_submit_transaction";
            "how_to_integrate_wallet_selector_ui"] by (vm_compute; reflexivity).
    left. reflexivity.
  - replace (listIdentifiers walletWorld)
      with ["how_to_add_wallet_connection"; "how_to_sign_and_submit_transaction";
            "how_to_integrate_wallet_selector_ui"] by (vm_compute; reflexivity).
    right. right. left. reflexivity.
  - discriminate.
  - vm_compute. reflexivity.
  - vm_compute. reflexivity.
  - exact H.
Defined.

(** A wallet query from a working directory without resources. *)
Lemma X6_witness_missing_directory :
  get_aptos_resources {| context := Some "wallet"; specific_resource := None |}
    missingDirWorld
  = (["Error reading how_to directory: " ++
      "Error: ENOENT: no such file or directory, scandir '/home/user/src/resources/how_to'"],
     Returns (textContent (noMatchText "wallet" []))).
Proof.
  apply (X6_context_query_without_directory missingDirWorld
           "Error: ENOENT: no such file or directory, scandir '/home/user/src/resources/how_to'"
           {| context := Some "wallet"; specific_resource := None |} "wallet");
    [reflexivity | reflexivity | discriminate | reflexivity].
Defined.

Example debug_wallet_issue :
  text (DebugIssue.execute
          {| DebugIssue.issue_description := "connect button does nothing";
             DebugIssue.current_code := None;
             DebugIssue.error_message := Some EmptyString;
             DebugIssue.context := DebugIssue.wallet_connection |})
  = "🔍 TARGETED APTOS GUIDANCE for: connect button does nothing" ++ nl ++ nl ++
    "📚 RECOMMENDED NEXT STEPS:" ++ nl ++
    "1. Consult these specific Aptos resources: how_to_add_wallet_connection, how_to_integrate_wallet_selector_ui" ++ nl ++
    "2. Use 'get_specific_aptos_resource' or 'get_aptos_resources' with context: " ++ dq ++ "wallet_connection" ++ dq ++ nl ++
    "3. Compare your approach with Aptos best practices from MCP resources" ++ nl ++ nl ++
    "🔄 IMPORTANT: Don't guess or use generic blockchain solutions. Always:" ++ nl ++
    "- Check MCP resources first before trying alternative approaches" ++ nl ++
    "- Use 'validate_current_implementation' after making changes" ++ nl ++
    "- If still stuck, provide more specific details to this tool" ++ nl ++ nl ++
    "📋 To get specific resources, use:" ++ nl ++
    "- get_specific_aptos_resource with exact filename" ++ nl ++
    "- get_aptos_resources with context: " ++ dq ++ "wallet_connection" ++ dq ++ nl.
Proof. vm_compute. reflexivity. Qed.

(** The rate-limit guide is found by the advised query [api_setup]. *)
Lemma X7_witness_api_setup :
  In "how_to_handle_rate_limit_in_a_dapp"
    (relevantResources ["how_to_handle_rate_limit_in_a_dapp"] "api_setup").
Proof.
  destruct (X7_debug_advice_against_matcher DebugIssue.api_setup
              "how_to_handle_rate_limit_in_a_dapp"
              ["how_to_handle_rate_limit_in_a_dapp"]) as [_ H].
  - right. left. reflexivity.
  - apply H. left. reflexivity.
Defined.

Example validate_wallet_integration :
  text (ValidateImplementation.execute
          {| ValidateImplementation.implementation_area :=
               ValidateImplementation.wallet_integration;
             ValidateImplementation.specific_concern := Some "popup blocked";
             ValidateImplementation.current_approach := None |})
  = "✅ APTOS VALIDATION CHECKLIST for: wallet_integration" ++ nl ++ nl ++
    "📋 VALIDATION POINTS:" ++ nl ++
    "1. Are you using the latest Aptos wallet standards?" ++ nl ++
    "2. Check 'how_to_add_wallet_connection' for current best practices" ++ nl ++
    "3. Verify wallet selector implementation with 'how_to_integrate_wallet_selector_ui'" ++ nl ++
    "4. Ensure you're not using outdated wallet connection methods" ++ nl ++
    nl ++ "🔄 NEXT STEPS:" ++ nl ++
    "- Use 'get_aptos_resources' with context related to wallet_integration" ++ nl ++
    "- If any validation points fail, use 'debug_aptos_issue' with specific details" ++ nl ++
    "- Regularly re-validate as you make changes" ++ nl ++
    nl ++ "⚠️  Specific Concern: popup blocked" ++ nl ++
    "Consider using 'debug_aptos_issue' with this specific concern for targeted guidance." ++ nl.
Proof. vm_compute. reflexivity. Qed.

(** The fixture: three guides kept, the text file dropped. *)
Lemma X9_witness_fixture :
  getAvailableHowToResources fixtureWorld
  = ([], Returns (map withoutLastThree
                    (filter endsWithMd
                       ["how_to_add_wallet_connection.md";
                        "how_to_sign_and_submit_transaction.md";
                        "how_to_integrate_fungible_asset.md"; "notes.txt"]))).
Proof.
  apply (X9_discovery_rule fixtureWorld).
  - vm_compute. reflexivity.
  - intros f Hf. simpl in Hf.
    repeat destruct Hf as [<-|Hf]; try (vm_compute; reflexivity). contradiction.
Defined.

(** With and without a snippet, with an empty and without error message. *)
Lemma X10_witness_snippet :
  DebugIssue.execute
    {| DebugIssue.issue_description := "transaction rejected";
       DebugIssue.current_code := Some "await signAndSubmitTransaction(tx)";
       DebugIssue.error_message := Some EmptyString;
       DebugIssue.context := DebugIssue.transaction_signing |}
  = DebugIssue.execute
      {| DebugIssue.issue_description := "transaction rejected";
         DebugIssue.current_code := None;
         DebugIssue.error_message := None;
         DebugIssue.context := DebugIssue.transaction_signing |}.
Proof.
  apply X10_debug_ignores_code_snippet; reflexivity.
Defined.


